(** * metrics-aggregate.py: a shallow embedding and its verification

    The script reads metrics files line by line, folds every timing
    record into a dictionary keyed by ['<ms>-<name>'], and prints the
    aggregated tuples.  This development embeds the functions of
    [metrics-aggregate.py] over Python-like primitives (strings, integer
    parsing, slicing, exceptions) and proves the properties the
    specification states about them.

    Conventions.
    - Python [int] is [Z]; [//] is [Z.div] (both floor, the sign of the
      remainder follows the divisor), except that Python raises
      [ZeroDivisionError] where [Z.div] returns 0: the division sites
      test the divisor explicitly.
    - Python [str] is [string], read as ASCII text: [upper] and the
      case folding of [Re] are those of the ASCII letters, which is
      what Python does on a text that [isascii] accepts.  A statement
      about letter case assumes such texts.
    - A Python exception is the [Raise] outcome of [result].
    - The module-level dictionary [metrics] is threaded explicitly as a
      [gmap string MetricsTuple]: the mapping, which is all the reading
      loop looks at.  The order in which the dictionary yields its
      values (the order in which its keys were first stored) is kept
      beside it as a list of keys, see [setitem_order] and [values].
    - The local time zone of the process is a fixed offset from UTC. *)

From Stdlib Require Import ZArith Lia Ascii DecimalString DecimalZ Permutation Sorted.
From stdpp Require Import base gmap strings list.

Local Open Scope Z_scope.

(** ** Python primitives used by the script *)

Module Py.

(** The exceptions the script can meet.  [Unmodelled] is not a Python
    exception: it marks a call that falls outside the fragment of a
    library this development embeds (see [Re.compile]). *)
Inductive exn : Set :=
| ValueError
| IndexError
| ZeroDivisionError
| SystemExit
| Unmodelled.

Inductive result (A : Type) : Type :=
| Ok (a : A)
| Raise (e : exn).
Arguments Ok {A} a.
Arguments Raise {A} e.

Definition bind {A B} (f : A → result B) (r : result A) : result B :=
  match r with
  | Ok a => f a
  | Raise e => Raise e
  end.

#[global] Instance result_ret : MRet result := @Ok.
#[global] Instance result_bind : MBind result := @bind.

(** [len(s)] *)
Fixpoint strlen (s : string) : nat :=
  match s with
  | EmptyString => O
  | String _ s' => S (strlen s')
  end.

Definition len (s : string) : Z := Z.of_nat (strlen s).

Fixpoint take_chars (n : nat) (s : string) : string :=
  match n, s with
  | S n', String c s' => String c (take_chars n' s')
  | _, _ => EmptyString
  end.

Fixpoint drop_chars (n : nat) (s : string) : string :=
  match n, s with
  | S n', String _ s' => drop_chars n' s'
  | _, _ => s
  end.

(** Index normalisation of a slice bound: a negative bound counts from
    the end, and every bound is clamped to [0 .. len]. *)
Definition clamp_index (n i : Z) : Z :=
  if i <? 0 then Z.max 0 (i + n) else Z.min i n.

(** [s[start:stop]]; [None] is an omitted bound. *)
Definition slice (s : string) (start stop : option Z) : string :=
  let n := len s in
  let lo := match start with Some i => clamp_index n i | None => 0 end in
  let hi := match stop with Some i => clamp_index n i | None => n end in
  take_chars (Z.to_nat (hi - lo)) (drop_chars (Z.to_nat lo) s).

(** [s.startswith(p)] *)
Fixpoint startswith (s p : string) : bool :=
  match p, s with
  | EmptyString, _ => true
  | String a p', String b s' => if Ascii.eqb a b then startswith s' p' else false
  | String _ _, EmptyString => false
  end.

(** [s.rindex(c)] for a one-character needle [c]: the highest index
    holding [c], [ValueError] when there is none. *)
Fixpoint rfind (c : ascii) (s : string) : option nat :=
  match s with
  | EmptyString => None
  | String a s' =>
      match rfind c s' with
      | Some i => Some (S i)
      | None => if Ascii.eqb a c then Some O else None
      end
  end.

Definition rindex (s : string) (c : ascii) : result Z :=
  match rfind c s with
  | Some i => Ok (Z.of_nat i)
  | None => Raise ValueError
  end.

(** [s.split(sep)] for a non-empty separator: non-overlapping
    occurrences, found left to right.  [skip] counts the characters of
    a separator occurrence still to be passed over, [cur] is the
    current piece. *)
Fixpoint split_go (sep : string) (skip : nat) (cur : string) (s : string)
  : list string :=
  match s with
  | EmptyString => [cur]
  | String c s' =>
      match skip with
      | S k => split_go sep k cur s'
      | O =>
          if startswith s sep
          then cur :: split_go sep (Nat.pred (strlen sep)) "" s'
          else split_go sep O (cur +:+ String c "") s'
      end
  end.

Definition split (s sep : string) : list string := split_go sep O "" s.

(** [l[i]] for a non-negative constant index *)
Definition getitem {A} (l : list A) (i : nat) : result A :=
  match l !! i with
  | Some x => Ok x
  | None => Raise IndexError
  end.

(** The white space [int] skips around a literal (ASCII: tab to
    carriage return, and the space). *)
Definition is_space (c : ascii) : bool :=
  let n := nat_of_ascii c in
  ((9 <=? n)%nat && (n <=? 13)%nat) || (n =? 32)%nat.

Fixpoint skip_leading_space (s : string) : string :=
  match s with
  | String c s' => if is_space c then skip_leading_space s' else s
  | EmptyString => EmptyString
  end.

Fixpoint skip_trailing_space (s : string) : string :=
  match s with
  | EmptyString => EmptyString
  | String c s' =>
      match skip_trailing_space s' with
      | EmptyString => if is_space c then EmptyString else String c EmptyString
      | r => String c r
      end
  end.

Definition digit_value (c : ascii) : option Z :=
  let n := nat_of_ascii c in
  if (48 <=? n)%nat && (n <=? 57)%nat then Some (Z.of_nat (n - 48)) else None.

Definition is_digit (c : ascii) : bool :=
  match digit_value c with Some _ => true | None => false end.

(** The digits of an integer literal, most significant first; a single
    underscore may separate two digits.  [prev] tells whether the
    previous character was a digit. *)
Fixpoint int_digits (acc : Z) (prev : bool) (s : string) : option Z :=
  match s with
  | EmptyString => if prev then Some acc else None
  | String c s' =>
      match digit_value c with
      | Some d => int_digits (10 * acc + d) true s'
      | None =>
          if Ascii.eqb c "_" && prev
          then match s' with
               | EmptyString => None
               | String c' _ => if is_digit c' then int_digits acc false s' else None
               end
          else None
      end
  end.

(** [int(s)]: surrounding white space is dropped, one sign is allowed,
    anything else that is not a decimal literal raises [ValueError]. *)
Definition int (s : string) : result Z :=
  let body := int_digits 0 false in
  let r :=
    match skip_trailing_space (skip_leading_space s) with
    | String "-" t => Z.opp <$> body t
    | String "+" t => body t
    | t => body t
    end in
  match r with
  | Some n => Ok n
  | None => Raise ValueError
  end.

(** [str(n)] for an integer *)
Definition str (n : Z) : string := NilZero.string_of_int (Z.to_int n).

Definition upper_char (c : ascii) : ascii :=
  let n := nat_of_ascii c in
  if (97 <=? n)%nat && (n <=? 122)%nat then ascii_of_nat (n - 32) else c.

Definition lower_char (c : ascii) : ascii :=
  let n := nat_of_ascii c in
  if (65 <=? n)%nat && (n <=? 90)%nat then ascii_of_nat (n + 32) else c.

(** [s.upper()], for an ASCII text *)
Fixpoint upper (s : string) : string :=
  match s with
  | EmptyString => EmptyString
  | String c s' => String (upper_char c) (upper s')
  end.

(** [s.isascii()] *)
Fixpoint isascii (s : string) : bool :=
  match s with
  | EmptyString => true
  | String c s' => (nat_of_ascii c <? 128)%nat && isascii s'
  end.

(** [a // b] *)
Definition floordiv (a b : Z) : result Z :=
  if b =? 0 then Raise ZeroDivisionError else Ok (a / b).

(** Right- and left-justification in a field of [w] characters. *)
Fixpoint spaces (n : nat) : string :=
  match n with
  | O => EmptyString
  | S n' => String " " (spaces n')
  end.

Definition rjust (w : nat) (s : string) : string :=
  spaces (w - strlen s) +:+ s.

Definition ljust (w : nat) (s : string) : string :=
  s +:+ spaces (w - strlen s).

Fixpoint zeros (n : nat) : string :=
  match n with
  | O => EmptyString
  | S n' => String "0" (zeros n')
  end.

(** A non-negative integer, zero-padded to [w] digits *)
Definition zfill (w : nat) (n : Z) : string :=
  let s := str n in zeros (w - strlen s) +:+ s.

End Py.

Import Py.

(** ** The parts of [datetime] the script calls

    Dates are proleptic Gregorian, as in Python's [datetime]; the
    functions below follow [datetime.py] ([_days_before_year],
    [_ymd2ord], [_ord2ymd]) and the directive patterns of
    [_strptime.py]. *)

Module Datetime.

Record date : Set := Date { year : Z; month : Z; day : Z }.
Record time : Set := Time { hour : Z; minute : Z; second : Z }.

Definition is_leap (y : Z) : bool :=
  (y mod 4 =? 0) && (negb (y mod 100 =? 0) || (y mod 400 =? 0)).

Definition days_in_month (y m : Z) : Z :=
  if m =? 2 then (if is_leap y then 29 else 28)
  else if (m =? 4) || (m =? 6) || (m =? 9) || (m =? 11) then 30
  else 31.

Definition days_before_year (y : Z) : Z :=
  let y1 := y - 1 in y1 * 365 + y1 / 4 - y1 / 100 + y1 / 400.

Fixpoint days_before_month_go (y : Z) (n : nat) : Z :=
  match n with
  | O => 0
  | S n' => days_before_month_go y n' + days_in_month y (Z.of_nat n)
  end.

Definition days_before_month (y m : Z) : Z :=
  days_before_month_go y (Z.to_nat (m - 1)).

(** [date.toordinal()]: 0001-01-01 is day 1. *)
Definition ymd2ord (d : date) : Z :=
  days_before_year (year d) + days_before_month (year d) (month d) + day d.

Definition DI400Y : Z := 146097.
Definition DI100Y : Z := 36524.
Definition DI4Y : Z := 1461.

(** The month holding day [n] (counted from 0) of year [y], and the
    day of that month, found by passing over the months one by one
    ([_ord2ymd] reaches the same month from an estimate); [fuel] bounds
    the months after [m]. *)
Fixpoint month_of_day (y n : Z) (m : Z) (fuel : nat) : Z * Z :=
  match fuel with
  | O => (m, n + 1)
  | S fuel' =>
      let dim := days_in_month y m in
      if n <? dim then (m, n + 1) else month_of_day y (n - dim) (m + 1) fuel'
  end.

(** [_ord2ymd] *)
Definition ord2ymd (n : Z) : date :=
  let n := n - 1 in
  let n400 := n / DI400Y in
  let n := n mod DI400Y in
  let y := n400 * 400 + 1 in
  let n100 := n / DI100Y in
  let n := n mod DI100Y in
  let n4 := n / DI4Y in
  let n := n mod DI4Y in
  let n1 := n / 365 in
  let n := n mod 365 in
  let y := y + n100 * 100 + n4 * 4 + n1 in
  if (n1 =? 4) || (n100 =? 4) then Date (y - 1) 12 31
  else let '(m, d) := month_of_day y n 1 11 in Date y m d.

Definition valid_date (d : date) : bool :=
  (1 <=? year d) && (year d <=? 9999) && (1 <=? month d) && (month d <=? 12)
  && (1 <=? day d) && (day d <=? days_in_month (year d) (month d)).

Definition valid_time (t : time) : bool :=
  (0 <=? hour t) && (hour t <=? 23) && (0 <=? minute t) && (minute t <=? 59)
  && (0 <=? second t) && (second t <=? 59).

(** Ordinal of 1970-01-01. *)
Definition EPOCH_ORD : Z := 719163.
(** Ordinal of 9999-12-31. *)
Definition MAX_ORD : Z := 3652059.

(** Does the wall clock [wall] seconds after 1970-01-01 00:00:00 show a
    date of the years 1 to 9999? *)
Definition in_years (wall : Z) : bool :=
  let ord := wall / 86400 + EPOCH_ORD in
  (1 <=? ord) && (ord <=? MAX_ORD).

(** Seconds from 1970-01-01 00:00:00 on the wall clock that shows date
    [d] and time [t]. *)
Definition wall_seconds (d : date) (t : time) : Z :=
  (ymd2ord d - EPOCH_ORD) * 86400 + hour t * 3600 + minute t * 60 + second t.

(** *** [strptime]

    A directive is an ordered alternation; the pattern of a format is
    the concatenation of its directives, matched with backtracking
    from the start of the string.  A matcher returns the ways it can
    match, in the order the regular expression engine tries them. *)

Definition matcher : Type := string → list (Z * string).

Definition between (lo hi : ascii) (c : ascii) : bool :=
  ((nat_of_ascii lo <=? nat_of_ascii c) && (nat_of_ascii c <=? nat_of_ascii hi))%nat.

Definition digit_of (c : ascii) : Z := Z.of_nat (nat_of_ascii c - 48).

Definition one (p : ascii → bool) : matcher := λ s,
  match s with
  | String a r => if p a then [(digit_of a, r)] else []
  | _ => []
  end.

Definition two (p q : ascii → bool) : matcher := λ s,
  match s with
  | String a (String b r) =>
      if p a && q b then [(10 * digit_of a + digit_of b, r)] else []
  | _ => []
  end.

Definition lit (c : ascii) (s : string) : list string :=
  match s with
  | String a r => if Ascii.eqb a c then [r] else []
  | _ => []
  end.

Definition any_digit : ascii → bool := between "0" "9".

(** [%Y]: [\d\d\d\d] *)
Definition dir_Y : matcher := λ s,
  match s with
  | String a (String b (String c (String d r))) =>
      if any_digit a && any_digit b && any_digit c && any_digit d
      then [(1000 * digit_of a + 100 * digit_of b + 10 * digit_of c + digit_of d, r)]
      else []
  | _ => []
  end.

(** [%m]: [1[0-2]|0[1-9]|[1-9]] *)
Definition dir_m : matcher := λ s,
  two (between "1" "1") (between "0" "2") s
  ++ two (between "0" "0") (between "1" "9") s
  ++ one (between "1" "9") s.

(** [%d]: [3[0-1]|[1-2]\d|0[1-9]|[1-9]| [1-9]] *)
Definition dir_d : matcher := λ s,
  two (between "3" "3") (between "0" "1") s
  ++ two (between "1" "2") any_digit s
  ++ two (between "0" "0") (between "1" "9") s
  ++ one (between "1" "9") s
  ++ (r ← lit " " s; one (between "1" "9") r).

(** [%H]: [2[0-3]|[0-1]\d|\d] *)
Definition dir_H : matcher := λ s,
  two (between "2" "2") (between "0" "3") s
  ++ two (between "0" "1") any_digit s
  ++ one any_digit s.

(** [%M]: [[0-5]\d|\d] *)
Definition dir_M : matcher := λ s,
  two (between "0" "5") any_digit s ++ one any_digit s.

(** [%S]: [6[0-1]|[0-5]\d|\d] *)
Definition dir_S : matcher := λ s,
  two (between "6" "6") (between "0" "1") s
  ++ two (between "0" "5") any_digit s
  ++ one any_digit s.

(** The first match decides: text left over after it, or a field out
    of range, is a [ValueError]. *)
Definition first_match {A} (ms : list (A * string)) (ok : A → bool) : result A :=
  match ms with
  | (a, EmptyString) :: _ => if ok a then Ok a else Raise ValueError
  | _ => Raise ValueError
  end.

(** [datetime.strptime(s, '%Y%m%d').date()] *)
Definition strptime_Ymd (s : string) : result date :=
  first_match
    ('(y, r1) ← dir_Y s; '(m, r2) ← dir_m r1; '(d, r3) ← dir_d r2;
     [(Date y m d, r3)])
    valid_date.

(** [datetime.strptime(s, '%H:%M:%S').time()] *)
Definition strptime_HMS (s : string) : result time :=
  first_match
    ('(h, r1) ← dir_H s; r2 ← lit ":" r1; '(m, r3) ← dir_M r2;
     r4 ← lit ":" r3; '(sec, r5) ← dir_S r4;
     [(Time h m sec, r5)])
    valid_time.

(** [d.strftime('%Y-%m-%d')] and [t.strftime('%H:%M')].  [%Y] is left
    to the C library, which writes a year below 1000 without leading
    zeros. *)
Definition strftime_Ymd (d : date) : string :=
  str (year d) +:+ "-" +:+ zfill 2 (month d) +:+ "-" +:+ zfill 2 (day d).

Definition strftime_HM (t : time) : string :=
  zfill 2 (hour t) +:+ ":" +:+ zfill 2 (minute t).

Section LocalZone.

(** The local time zone, as a fixed offset in seconds east of UTC.
    Daylight-saving transitions are outside the model. *)
Variable utcoffset : Z.

(** [int(datetime.combine(d, t).timestamp() * 1000)] for a naive
    date-time with whole seconds: the float is an exact integer, so
    the result is computed on [Z].  To find the instant, [timestamp]
    reads the wall clock [utcoffset] seconds further and one day
    back; it raises [ValueError] when either falls outside the
    supported years. *)
Definition timestamp_ms (d : date) (t : time) : result Z :=
  let wall := wall_seconds d t in
  if in_years (wall + utcoffset) && in_years (wall - 86400)
  then Ok ((wall - utcoffset) * 1000)
  else Raise ValueError.

(** [datetime.fromtimestamp(ms / 1000)], down to the minute: the
    wall-clock date and time of the instant.  The quotient is a
    float and [fromtimestamp] rounds it to the microsecond; for an
    instant inside the supported years the error of both is far
    below a millisecond, so the date, hour and minute are those of
    [floor (ms / 1000)].  [fromtimestamp] also reads the wall clock
    one day back, and raises when either lies outside the supported
    years ([ValueError]; far outside, where the platform's clock
    type gives up first, [OverflowError] or [OSError], which the
    model does not tell apart from it). *)
Definition fromtimestamp (ms : Z) : result (date * time) :=
  let wall := ms / 1000 + utcoffset in
  let ord := wall / 86400 + EPOCH_ORD in
  let secs := wall mod 86400 in
  if in_years wall && in_years (wall - 86400)
  then Ok (ord2ymd ord, Time (secs / 3600) (secs mod 3600 / 60) (secs mod 60))
  else Raise ValueError.

End LocalZone.

End Datetime.


(** ** The fragment of [re] the filter is exercised with

    Patterns made of literal characters, [.], [^] and [$], matched with
    the [re.I] flag over ASCII text.  Any other pattern is reported as
    [Unmodelled]. *)

Module Re.

Inductive atom : Set :=
| Lit (c : ascii)
| AnyChar
| Bol
| Eol.

Definition pattern : Set := list atom.

Definition is_meta (c : ascii) : bool :=
  existsb (Ascii.eqb c)
    ["\"; "*"; "+"; "?"; "{"; "}"; "["; "]"; "("; ")"; "|"]%char.

Fixpoint parse (s : string) : option pattern :=
  match s with
  | EmptyString => Some []
  | String c s' =>
      if is_meta c then None
      else
        let a := if Ascii.eqb c "^" then Bol
                 else if Ascii.eqb c "$" then Eol
                 else if Ascii.eqb c "." then AnyChar
                 else Lit c in
        cons a <$> parse s'
  end.

(** [re.compile(s, re.I)] *)
Definition compile (s : string) : result pattern :=
  match parse s with
  | Some p => Ok p
  | None => Raise Unmodelled
  end.

Definition newline : ascii := "010"%char.

(** Does [p] match a prefix of [s]?  [at_start] tells whether [s] is
    the whole subject string. *)
Fixpoint match_here (p : pattern) (at_start : bool) (s : string) : bool :=
  match p with
  | [] => true
  | Bol :: p' => at_start && match_here p' at_start s
  | Eol :: p' =>
      match s with
      | EmptyString => match_here p' at_start s
      | String a EmptyString => Ascii.eqb a newline && match_here p' at_start s
      | _ => false
      end
  | Lit c :: p' =>
      match s with
      | String a r => Ascii.eqb (lower_char c) (lower_char a) && match_here p' false r
      | EmptyString => false
      end
  | AnyChar :: p' =>
      match s with
      | String a r => negb (Ascii.eqb a newline) && match_here p' false r
      | EmptyString => false
      end
  end.

Fixpoint search_go (p : pattern) (at_start : bool) (s : string) : bool :=
  match_here p at_start s ||
  match s with
  | String _ r => search_go p false r
  | EmptyString => false
  end.

(** [p.search(s) is not None] *)
Definition search (p : pattern) (s : string) : bool := search_go p true s.

End Re.

(** ** The script *)

Module MetricsTuple.
(** [namedtuple('MetricsTuple', metrics_field_names)] *)
Record t : Set := mk {
  date : string;
  time : string;
  name : string;
  count : Z;
  avg : Z;
  max : Z;
  sum : Z;
  errcount : Z
}.
End MetricsTuple.

Abbreviation MetricsTuple := MetricsTuple.t.

Definition TIMING_RECORD : string := "tm".

Definition MICROSECONDS_TO_MILLISECONDS : Z := 1000.
Definition MICROSECONDS_TO_SECONDS : Z := 1000 * 1000.

Definition MILLISECONDS_TO_MINUTE : Z := 60 * 1000.
Definition MILLISECONDS_TO_HOUR : Z := 60 * 60 * 1000.
Definition MILLISECONDS_TO_DAY : Z := 24 * 60 * 60 * 1000.

(** [field_value]: the first field that starts with [field_name]
    decides. *)
Fixpoint field_value (field_name : string) (fields : list string) : result Z :=
  match fields with
  | [] => Ok 0
  | field :: rest =>
      if startswith field field_name
      then int (slice field (Some (len field_name + 1)) None)
      else field_value field_name rest
  end.

(** The dictionary key of [record_metrics_line]. *)
Definition metrics_key (ms : Z) (name : string) : string :=
  str ms +:+ "-" +:+ name.

(** [parse_filename_date] *)
Definition parse_filename_date (filename : string) : result Datetime.date :=
  extension_index ← rindex filename "." ;
  let iso_date := slice filename (Some (extension_index - 8)) (Some extension_index) in
  Datetime.strptime_Ymd iso_date.

Definition name_field_width : Z := 70.

Definition abbreviated_name (name : string) : string :=
  if len name <? name_field_width then name
  else "..." +:+ slice name (Some (- name_field_width + 3)) None.

(** [{n:wd}] *)
Definition fmt_d (w : nat) (n : Z) : string := rjust w (str n).

(** The body of [print_metrics] for one tuple is [print_metrics_line];
    [format_row] is its format string, applied to its keyword
    arguments. *)
Definition format_row (date time name : string) (count sum max avg errcount : Z)
  : string :=
  date +:+ " " +:+ time +:+ "  " +:+ ljust 70 name
  +:+ "  count=" +:+ fmt_d 4 count
  +:+ "   sum=" +:+ fmt_d 7 sum
  +:+ "   max=" +:+ fmt_d 7 max
  +:+ "   avg=" +:+ fmt_d 7 avg
  +:+ "   errs=" +:+ fmt_d 3 errcount.

Definition print_metrics_line (unit_divisor : Z) (metrics : MetricsTuple)
  : result string :=
  let abbreviated_name := abbreviated_name (MetricsTuple.name metrics) in
  sum ← floordiv (MetricsTuple.sum metrics) unit_divisor ;
  max ← floordiv (MetricsTuple.max metrics) unit_divisor ;
  avg ← floordiv (MetricsTuple.avg metrics) unit_divisor ;
  mret (format_row (MetricsTuple.date metrics) (MetricsTuple.time metrics)
          abbreviated_name (MetricsTuple.count metrics) sum max avg
          (MetricsTuple.errcount metrics)).

(** [print_metrics]: the lines written to standard output, in order. *)
Fixpoint print_metrics (unit_divisor : Z) (sorted_metrics : list MetricsTuple)
  : result (list string) :=
  match sorted_metrics with
  | [] => Ok []
  | metrics :: rest =>
      line ← print_metrics_line unit_divisor metrics ;
      lines ← print_metrics unit_divisor rest ;
      mret (line :: lines)
  end.

(** The value of the global [unit_divisor] after the [--units] argument
    has been looked at; [units] is ['ns'] when the flag is absent. *)
Definition unit_divisor (units : string) : Z :=
  if String.eqb units "ms" then MICROSECONDS_TO_MILLISECONDS
  else if String.eqb units "sec" then MICROSECONDS_TO_SECONDS
  else 1.

(** The value of [milliseconds_aggregation] after the [--aggregate]
    argument has been looked at; [argument_parser.exit] is
    [SystemExit]. *)
Definition milliseconds_aggregation (aggregate : option string) : result (option Z) :=
  match aggregate with
  | None => Ok None
  | Some aggregate =>
      quantity ← int (slice aggregate (Some 0) (Some (-1))) ;
      let units_specifier := upper (slice aggregate (Some (-1)) None) in
      if String.eqb units_specifier "M" then Ok (Some (quantity * MILLISECONDS_TO_MINUTE))
      else if String.eqb units_specifier "H" then Ok (Some (quantity * MILLISECONDS_TO_HOUR))
      else if String.eqb units_specifier "D" then Ok (Some (quantity * MILLISECONDS_TO_DAY))
      else Raise SystemExit
  end.

Section Script.

(** The local time zone of the process, seconds east of UTC. *)
Variable utcoffset : Z.

(** [record_metrics_line], with the dictionary passed in and returned. *)
Definition record_metrics_line (metrics : gmap string MetricsTuple)
  (ms : Z) (name : string) (metrics_fields : list string)
  : result (gmap string MetricsTuple) :=
  let key := metrics_key ms name in
  let existing := metrics !! key in
  let count_value := match existing with None => 0 | Some e => MetricsTuple.count e end in
  let avg_value := match existing with None => 0 | Some e => MetricsTuple.avg e end in
  let max_value := match existing with None => 0 | Some e => MetricsTuple.max e end in
  let sum_value := match existing with None => 0 | Some e => MetricsTuple.sum e end in
  let err_count_value := match existing with None => 0 | Some e => MetricsTuple.errcount e end in
  c ← field_value "count" metrics_fields ;
  let count_value := count_value + c in
  m ← field_value "max" metrics_fields ;
  let max_value := max_value + m in
  s ← field_value "sum" metrics_fields ;
  let sum_value := sum_value + s in
  e ← field_value "err.count" metrics_fields ;
  let err_count_value := err_count_value + e in
  let avg_value := if count_value >? 0 then sum_value / count_value else 0 in
  '(d, t) ← Datetime.fromtimestamp utcoffset ms ;
  let date := Datetime.strftime_Ymd d in
  let time := Datetime.strftime_HM t in
  let mt := MetricsTuple.mk date time name count_value avg_value max_value
              sum_value err_count_value in
  mret (<[key := mt]> metrics).

(** [calculate_aggregation_period_start_ms], the closure of
    [process_files] over [aggregation_ms]. *)
Definition calculate_aggregation_period_start_ms (aggregation_ms : option Z)
  (d : Datetime.date) (t : Datetime.time) : result Z :=
  ms ← Datetime.timestamp_ms utcoffset d t ;
  match aggregation_ms with
  | Some aggregation_ms =>
      q ← floordiv ms aggregation_ms ;
      mret (q * aggregation_ms)
  | None => Ok ms
  end.

(** The test [(regex_func is None) or (regex_func(name) == True)] of
    [read_file]. *)
Definition passes_filter (regex_func : option (string → bool)) (name : string)
  : bool :=
  match regex_func with
  | None => true
  | Some f => f name
  end.

(** The body of the loop of [read_file] for one line. *)
Definition read_line (file_date : Datetime.date)
  (aggregation_func : Datetime.date → Datetime.time → result Z)
  (regex_func : option (string → bool))
  (metrics : gmap string MetricsTuple) (line : string)
  : result (gmap string MetricsTuple) :=
  let split_line := split line ", " in
  raw_time ← getitem split_line 0 ;
  type ← getitem split_line 1 ;
  name ← getitem split_line 2 ;
  let summary_fields := drop 3 split_line in
  line_time ← Datetime.strptime_HMS raw_time ;
  ms ← aggregation_func file_date line_time ;
  if String.eqb type TIMING_RECORD
  then
    if passes_filter regex_func name
    then record_metrics_line metrics ms name summary_fields
    else Ok metrics
  else Ok metrics.

Fixpoint read_lines (file_date : Datetime.date)
  (aggregation_func : Datetime.date → Datetime.time → result Z)
  (regex_func : option (string → bool))
  (metrics : gmap string MetricsTuple) (file : list string)
  : result (gmap string MetricsTuple) :=
  match file with
  | [] => Ok metrics
  | line :: rest =>
      metrics ← read_line file_date aggregation_func regex_func metrics line ;
      read_lines file_date aggregation_func regex_func metrics rest
  end.

(** [read_file]; [file] is the content of the file named [filename],
    as the lines the iteration over the open file yields. *)
Definition read_file (filename : string) (file : list string)
  (aggregation_func : Datetime.date → Datetime.time → result Z)
  (regex_func : option (string → bool))
  (metrics : gmap string MetricsTuple)
  : result (gmap string MetricsTuple) :=
  file_date ← parse_filename_date filename ;
  read_lines file_date aggregation_func regex_func metrics file.

(** [filter_by_regex], the closure of [process_files] over
    [compiled_regex]. *)
Definition filter_by_regex (compiled_regex : Re.pattern) (s : string) : bool :=
  Re.search compiled_regex s.

(** The choice of [regex_func] in [process_files]. *)
Definition regex_func_of (grep_regex : option string)
  : result (option (string → bool)) :=
  match grep_regex with
  | Some grep_regex =>
      compiled_regex ← Re.compile grep_regex ;
      mret (Some (filter_by_regex compiled_regex))
  | None => Ok None
  end.

Fixpoint read_files (files : list (string * list string))
  (aggregation_ms : option Z) (regex_func : option (string → bool))
  (metrics : gmap string MetricsTuple) : result (gmap string MetricsTuple) :=
  match files with
  | [] => Ok metrics
  | (filename, file) :: rest =>
      metrics ← read_file filename file
                  (calculate_aggregation_period_start_ms aggregation_ms)
                  regex_func metrics ;
      read_files rest aggregation_ms regex_func metrics
  end.

(** [process_files] up to the end of the reading loop: the dictionary
    the sort and the output start from.  [files] pairs every file
    name with the lines of that file. *)
Definition process_files (files : list (string * list string))
  (aggregation_ms : option Z) (grep_regex : option string)
  (metrics : gmap string MetricsTuple) : result (gmap string MetricsTuple) :=
  regex_func ← regex_func_of grep_regex ;
  read_files files aggregation_ms regex_func metrics.

End Script.


(** ** The rest of the script: the [--sort] argument and the sort *)

Definition metrics_field_names : list string :=
  ["date"; "time"; "name"; "count"; "avg"; "max"; "sum"; "errcount"].

(** White space as [str.strip] sees it (ASCII: tab to carriage return,
    the four separators 28 to 31, and the space). *)
Definition is_strip_space (c : ascii) : bool :=
  let n := nat_of_ascii c in
  ((9 <=? n)%nat && (n <=? 13)%nat) || ((28 <=? n)%nat && (n <=? 32)%nat).

Fixpoint lstrip (s : string) : string :=
  match s with
  | String c s' => if is_strip_space c then lstrip s' else s
  | EmptyString => EmptyString
  end.

Fixpoint rstrip (s : string) : string :=
  match s with
  | EmptyString => EmptyString
  | String c s' =>
      match rstrip s' with
      | EmptyString => if is_strip_space c then EmptyString else String c EmptyString
      | r => String c r
      end
  end.

(** [s.strip()] *)
Definition strip (s : string) : string := rstrip (lstrip s).

(** The loop over [args.sort.split(",")]: each piece is stripped and
    appended to [sort_fields], then checked; [argument_parser.exit]
    ([SystemExit]) on one that is no field name. *)
Fixpoint parse_sort_fields (args_sort_fields sort_fields : list string)
  : result (list string) :=
  match args_sort_fields with
  | [] => Ok sort_fields
  | field :: rest =>
      let sort_fields := sort_fields ++ [strip field] in
      if bool_decide (strip field ∈ metrics_field_names)
      then parse_sort_fields rest sort_fields
      else Raise SystemExit
  end.

(** The value of the global [sort_fields] after the [--sort] argument
    has been looked at; the argument defaults to ['date,time,name']. *)
Definition sort_fields (sort : option string) : result (list string) :=
  match sort with
  | Some sort => parse_sort_fields (split sort ",") []
  | None => Ok []
  end.

(** How one attribute of two tuples compares, as [==] and [<] on its
    values decide: strings by their characters' codes, integers by
    value.  [None] stands for the AttributeError of a name that is no
    attribute. *)
Definition attr_compare (field : string) (a b : MetricsTuple) : option comparison :=
  if String.eqb field "date"
  then Some (String.compare (MetricsTuple.date a) (MetricsTuple.date b))
  else if String.eqb field "time"
  then Some (String.compare (MetricsTuple.time a) (MetricsTuple.time b))
  else if String.eqb field "name"
  then Some (String.compare (MetricsTuple.name a) (MetricsTuple.name b))
  else if String.eqb field "count"
  then Some (Z.compare (MetricsTuple.count a) (MetricsTuple.count b))
  else if String.eqb field "avg"
  then Some (Z.compare (MetricsTuple.avg a) (MetricsTuple.avg b))
  else if String.eqb field "max"
  then Some (Z.compare (MetricsTuple.max a) (MetricsTuple.max b))
  else if String.eqb field "sum"
  then Some (Z.compare (MetricsTuple.sum a) (MetricsTuple.sum b))
  else if String.eqb field "errcount"
  then Some (Z.compare (MetricsTuple.errcount a) (MetricsTuple.errcount b))
  else None.

(** How [attrgetter( *fields)(a)] and [attrgetter( *fields)(b)] compare:
    attribute by attribute, the first that differs deciding (for one
    field the key is the attribute itself, which compares the same). *)
Fixpoint key_compare (fields : list string) (a b : MetricsTuple) : option comparison :=
  match fields with
  | [] => Some Eq
  | field :: rest =>
      c ← attr_compare field a b ;
      match c with
      | Eq => key_compare rest a b
      | _ => Some c
      end
  end.

(** [attrgetter( *fields)(a) < attrgetter( *fields)(b)] *)
Definition key_lt (fields : list string) (a b : MetricsTuple) : bool :=
  match key_compare fields a b with
  | Some Lt => true
  | _ => false
  end.

(** A stable sort that compares with [lt] only: an element goes in
    after the elements that are less than it and before all others. *)
Fixpoint insert_sorted {A} (lt : A → A → bool) (x : A) (l : list A) : list A :=
  match l with
  | [] => [x]
  | y :: l' => if lt y x then y :: insert_sorted lt x l' else x :: l
  end.

Fixpoint stable_sort {A} (lt : A → A → bool) (l : list A) : list A :=
  match l with
  | [] => []
  | x :: l' => insert_sorted lt x (stable_sort lt l')
  end.

(** [sorted(values, key=attrgetter( *sort_fields))], [values] being
    [metrics.values()].  [attrgetter] wants at least one name
    (TypeError), and the key of a tuple exists only when every name is
    an attribute (AttributeError): both are [None].  [sorted] is
    stable and compares keys with [<] only, which fixes its result. *)
Definition sorted_metrics (sort_fields : list string) (values : list MetricsTuple)
  : option (list MetricsTuple) :=
  match sort_fields with
  | [] => None
  | _ =>
      if forallb (λ mt, forallb (λ field, bool_decide (is_Some (attr_compare field mt mt)))
                          sort_fields) values
      then Some (stable_sort (key_lt sort_fields) values)
      else None
  end.

(** The lexicographic comparison by a list of comparisons. *)
Fixpoint lex {A} (cmps : list (A → A → comparison)) (a b : A) : comparison :=
  match cmps with
  | [] => Eq
  | cmp :: rest =>
      match cmp a b with
      | Eq => lex rest a b
      | c => c
      end
  end.

(** The total comparison behind [attr_compare]. *)
Definition attr_cmp (field : string) (a b : MetricsTuple) : comparison :=
  default Eq (attr_compare field a b).

(** ** Vocabulary of the statements *)

Fixpoint all_digits (s : string) : Prop :=
  match s with
  | EmptyString => True
  | String c s' => is_digit c = true ∧ all_digits s'
  end.

(** The tuple a key stands for before its first observation: every
    accumulator of [record_metrics_line] starts from 0. *)
Definition zero_tuple : MetricsTuple := MetricsTuple.mk "" "" "" 0 0 0 0 0.

(** The average as the code derives it: the quotient when the count is
    positive, 0 otherwise. *)
Definition avg_of (sum count : Z) : Z :=
  if count >? 0 then sum / count else 0.

(** The average in the words of the specification: [sum div count],
    0 if count is 0. *)
Definition spec_avg (sum count : Z) : Z :=
  if count =? 0 then 0 else sum / count.

(** The four numbers one record contributes. *)
Record observation : Set := Observation {
  o_count : Z;
  o_max : Z;
  o_sum : Z;
  o_errcount : Z
}.

(** [fields] carries the numbers of [o]. *)
Definition observes (fields : list string) (o : observation) : Prop :=
  field_value "count" fields = Ok (o_count o)
  ∧ field_value "max" fields = Ok (o_max o)
  ∧ field_value "sum" fields = Ok (o_sum o)
  ∧ field_value "err.count" fields = Ok (o_errcount o).

(** The tuple stored when [o] is merged into [old] for the bucket
    labelled [d], [t]. *)
Definition merged (d : Datetime.date) (t : Datetime.time) (name : string)
  (old : MetricsTuple) (o : observation) : MetricsTuple :=
  let count := MetricsTuple.count old + o_count o in
  let sum := MetricsTuple.sum old + o_sum o in
  MetricsTuple.mk (Datetime.strftime_Ymd d) (Datetime.strftime_HM t) name
    count (avg_of sum count) (MetricsTuple.max old + o_max o) sum
    (MetricsTuple.errcount old + o_errcount o).

Definition Zsum (l : list Z) : Z := foldr Z.add 0 l.

(** The sum of a list of observations, field by field. *)
Definition total (os : list observation) : observation :=
  Observation (Zsum (o_count <$> os)) (Zsum (o_max <$> os))
    (Zsum (o_sum <$> os)) (Zsum (o_errcount <$> os)).

(** Every stored average is the one derived from the stored sum and
    count. *)
Definition avg_invariant (metrics : gmap string MetricsTuple) : Prop :=
  ∀ key mt, metrics !! key = Some mt →
    MetricsTuple.avg mt = avg_of (MetricsTuple.sum mt) (MetricsTuple.count mt).

(** The merges of a run of records that share bucket [ms] and name
    [name], in order: what the loop of [read_file] does with them. *)
Fixpoint merge_all (utcoffset : Z) (metrics : gmap string MetricsTuple)
  (ms : Z) (name : string) (obs : list (list string))
  : result (gmap string MetricsTuple) :=
  match obs with
  | [] => Ok metrics
  | fields :: rest =>
      metrics ← record_metrics_line utcoffset metrics ms name fields ;
      merge_all utcoffset metrics ms name rest
  end.

(** The text of a line as the iteration over the file yields it: with
    its terminator, which the last line of a file may lack. *)
Definition eol (terminated : bool) : string :=
  if terminated then String Re.newline "" else "".

(** [line] is a timing record of bucket [ms] and name [name] carrying
    [fields], under the bucketing [aggregation_func] of a file dated
    [file_date]. *)
Definition keyed_line (file_date : Datetime.date)
  (aggregation_func : Datetime.date → Datetime.time → result Z)
  (ms : Z) (name : string) (line : string) (fields : list string) : Prop :=
  ∃ raw_time line_time,
    split line ", " = raw_time :: TIMING_RECORD :: name :: fields
    ∧ Datetime.strptime_HMS raw_time = Ok line_time
    ∧ aggregation_func file_date line_time = Ok ms.

(** The number a run of decimal digits denotes, by Horner's rule from
    the accumulator [acc]. *)
Fixpoint uint_value (acc : Z) (d : Decimal.uint) : Z :=
  match d with
  | Decimal.Nil => acc
  | Decimal.D0 l => uint_value (10 * acc) l
  | Decimal.D1 l => uint_value (10 * acc + 1) l
  | Decimal.D2 l => uint_value (10 * acc + 2) l
  | Decimal.D3 l => uint_value (10 * acc + 3) l
  | Decimal.D4 l => uint_value (10 * acc + 4) l
  | Decimal.D5 l => uint_value (10 * acc + 5) l
  | Decimal.D6 l => uint_value (10 * acc + 6) l
  | Decimal.D7 l => uint_value (10 * acc + 7) l
  | Decimal.D8 l => uint_value (10 * acc + 8) l
  | Decimal.D9 l => uint_value (10 * acc + 9) l
  end.

Fixpoint no_space (s : string) : Prop :=
  match s with
  | EmptyString => True
  | String c s' => is_space c = false ∧ no_space s'
  end.



(** What one line of a metrics file does to the dictionary: it stops
    the run with an exception, leaves the dictionary as it is, or merges
    an observation under a bucket and a name. *)
Inductive effect : Set :=
| Fails (e : exn)
| Skips
| Merges (ms : Z) (name : string) (o : observation).

Definition apply_effect (utcoffset : Z) (eff : effect)
  (metrics : gmap string MetricsTuple) : result (gmap string MetricsTuple) :=
  match eff with
  | Fails e => Raise e
  | Skips => Ok metrics
  | Merges ms name o =>
      '(d, t) ← Datetime.fromtimestamp utcoffset ms ;
      Ok (<[metrics_key ms name :=
              merged d t name (default zero_tuple (metrics !! metrics_key ms name)) o]>
            metrics)
  end.

(** The numbers of a record, read in the order [record_metrics_line]
    reads them. *)
Definition read_observation (fields : list string) : result observation :=
  c ← field_value "count" fields ;
  m ← field_value "max" fields ;
  s ← field_value "sum" fields ;
  e ← field_value "err.count" fields ;
  Ok (Observation c m s e).

(** The effect of a line, read off the line alone. *)
Definition line_effect (file_date : Datetime.date)
  (aggregation_func : Datetime.date → Datetime.time → result Z)
  (regex_func : option (string → bool)) (line : string) : effect :=
  match split line ", " with
  | raw_time :: type :: name :: summary_fields =>
      match Datetime.strptime_HMS raw_time with
      | Raise e => Fails e
      | Ok line_time =>
          match aggregation_func file_date line_time with
          | Raise e => Fails e
          | Ok ms =>
              if String.eqb type TIMING_RECORD && passes_filter regex_func name
              then match read_observation summary_fields with
                   | Raise e => Fails e
                   | Ok o => Merges ms name o
                   end
              else Skips
          end
      end
  | _ => Fails IndexError
  end.

(** What a merge adds to a number summed over the whole dictionary. *)
Definition contribution (g : observation → Z) (eff : effect) : Z :=
  match eff with
  | Merges _ _ o => g o
  | _ => 0
  end.

(** The sum of [f] over the tuples of the dictionary. *)
Definition grand_total (f : MetricsTuple → Z) (metrics : gmap string MetricsTuple) : Z :=
  Zsum ((λ kv, f kv.2) <$> map_to_list metrics).

(** No character of [s] is a comma. *)
Fixpoint no_comma (s : string) : Prop :=
  match s with
  | EmptyString => True
  | String c s' => c ≠ ","%char ∧ no_comma s'
  end.


(** The meaning [Re.parse] gives a character that is not a
    metacharacter. *)
Definition atom_of (c : ascii) : Re.atom :=
  if Ascii.eqb c "^" then Re.Bol
  else if Ascii.eqb c "$" then Re.Eol
  else if Ascii.eqb c "." then Re.AnyChar
  else Re.Lit c.

(** A date as the name of a metrics file carries it: YYYYMMDD. *)
Definition Ymd_text (d : Datetime.date) : string :=
  zfill 4 (Datetime.year d) +:+ zfill 2 (Datetime.month d) +:+ zfill 2 (Datetime.day d).

(** No character of [s] is a dot. *)
Fixpoint no_dot (s : string) : Prop :=
  match s with
  | EmptyString => True
  | String c s' => c ≠ "."%char ∧ no_dot s'
  end.

(** The text of year [y] is four digits that [%Y] reads back as [y]. *)
Definition year_text_ok (y : Z) : bool :=
  match zfill 4 y with
  | String a (String b (String c (String e EmptyString))) =>
      Datetime.any_digit a && Datetime.any_digit b && Datetime.any_digit c
      && Datetime.any_digit e
      && (1000 * Datetime.digit_of a + 100 * Datetime.digit_of b
          + 10 * Datetime.digit_of c + Datetime.digit_of e =? y)
  | _ => false
  end.

(** A comparison that orders like [==] and [<] on strings or on
    integers: a total preorder. *)
Record ordering {A} (cmp : A → A → comparison) : Prop := Ordering {
  ord_antisym : ∀ a b, cmp b a = CompOpp (cmp a b);
  ord_eq : ∀ a b c, cmp a b = Eq → cmp a c = cmp b c;
  ord_trans : ∀ a b c, cmp a b = Lt → cmp b c = Lt → cmp a c = Lt
}.

Definition cmp_lt {A} (cmp : A → A → comparison) (a b : A) : bool :=
  match cmp a b with Lt => true | _ => false end.

Definition cmp_eqb {A} (cmp : A → A → comparison) (a b : A) : bool :=
  match cmp a b with Eq => true | _ => false end.

Definition cmp_le {A} (cmp : A → A → comparison) (a b : A) : Prop :=
  cmp a b ≠ Gt.

(** A time of day as a metrics file writes it: HH:MM:SS. *)
Definition HMS_text (t : Datetime.time) : string :=
  zfill 2 (Datetime.hour t) +:+ ":" +:+ zfill 2 (Datetime.minute t) +:+ ":"
  +:+ zfill 2 (Datetime.second t).

(** A timing record as a metrics file writes it. *)
Definition render_line (t : Datetime.time) (name : string) (o : observation)
  (terminated : bool) : string :=
  HMS_text t +:+ ", " +:+ TIMING_RECORD +:+ ", " +:+ name
  +:+ ", " +:+ "count=" +:+ str (o_count o)
  +:+ ", " +:+ "max=" +:+ str (o_max o)
  +:+ ", " +:+ "sum=" +:+ str (o_sum o)
  +:+ ", " +:+ "err.count=" +:+ str (o_errcount o) +:+ eol terminated.

(** The numbers a line merges are not negative. *)
Definition nonneg_effect (eff : effect) : Prop :=
  match eff with
  | Merges _ _ o => 0 ≤ o_count o ∧ 0 ≤ o_max o ∧ 0 ≤ o_sum o ∧ 0 ≤ o_errcount o
  | _ => True
  end.

(** Tuple [mt'] holds at least the numbers of [mt]. *)
Definition grown (mt mt' : MetricsTuple) : Prop :=
  MetricsTuple.count mt ≤ MetricsTuple.count mt'
  ∧ MetricsTuple.max mt ≤ MetricsTuple.max mt'
  ∧ MetricsTuple.sum mt ≤ MetricsTuple.sum mt'
  ∧ MetricsTuple.errcount mt ≤ MetricsTuple.errcount mt'.

(** [metrics[key] = mt] also fixes where the entry sits when the
    dictionary is iterated: a key stored for the first time goes last,
    a key that is there already stays where it is.  [order] lists the
    keys of the dictionary in that order. *)
Definition setitem_order (order : list string) (key : string) : list string :=
  if bool_decide (key ∈ order) then order else order ++ [key].

(** The order of the keys after a line of effect [eff]: a merge stores
    under its key, nothing else touches the dictionary. *)
Definition effect_order (eff : effect) (order : list string) : list string :=
  match eff with
  | Merges ms name _ => setitem_order order (metrics_key ms name)
  | _ => order
  end.

(** The order of the keys after the lines of a file. *)
Fixpoint read_lines_order (file_date : Datetime.date)
  (aggregation_func : Datetime.date → Datetime.time → result Z)
  (regex_func : option (string → bool))
  (order : list string) (file : list string) : list string :=
  match file with
  | [] => order
  | line :: rest =>
      read_lines_order file_date aggregation_func regex_func
        (effect_order (line_effect file_date aggregation_func regex_func line) order)
        rest
  end.

(** [metrics.values()]: the tuples, in the order of their keys. *)
Definition values (metrics : gmap string MetricsTuple) (order : list string)
  : list MetricsTuple :=
  omap (λ key, metrics !! key) order.

(** [order] lists the keys of [metrics], each once. *)
Definition keys_in_order (metrics : gmap string MetricsTuple) (order : list string)
  : Prop :=
  NoDup order ∧ ∀ key, key ∈ order ↔ is_Some (metrics !! key).

(** ** Verification *)

(** *** The primitives on concrete inputs *)

Example split_examples :
  split "a, b, c" ", " = ["a"; "b"; "c"]
  ∧ split "a, " ", " = ["a"; ""]
  ∧ split "" ", " = [""]
  ∧ split "a,, b,  c" ", " = ["a,"; "b"; " c"]
  ∧ split "date, time,name" "," = ["date"; " time"; "name"].
Proof. repeat split; reflexivity. Qed.

Example int_examples :
  int (" 12" +:+ eol true) = Ok 12
  ∧ int "-2" = Ok (-2)
  ∧ int "+7" = Ok 7
  ∧ int "007" = Ok 7
  ∧ int "1_000" = Ok 1000
  ∧ int "=5" = Raise ValueError
  ∧ int "" = Raise ValueError
  ∧ int "1__0" = Raise ValueError
  ∧ int "_1" = Raise ValueError
  ∧ int "1_" = Raise ValueError
  ∧ int "- 1" = Raise ValueError
  ∧ int "1.5" = Raise ValueError.
Proof. repeat split; reflexivity. Qed.

Example str_examples :
  str 0 = "0" ∧ str (-15) = "-15" ∧ str 1704103200000 = "1704103200000".
Proof. repeat split; reflexivity. Qed.

Example slice_examples :
  slice "app-20240101.txt" (Some 4) (Some 12) = "20240101"
  ∧ slice "15m" (Some 0) (Some (-1)) = "15"
  ∧ slice "15m" (Some (-1)) None = "m"
  ∧ slice "" (Some (-1)) None = ""
  ∧ slice "abc" (Some (-5)) (Some 2) = "ab"
  ∧ slice "count=12" (Some 6) None = "12".
Proof. repeat split; reflexivity. Qed.

Example calendar_examples :
  Datetime.ymd2ord (Datetime.Date 1970 1 1) = Datetime.EPOCH_ORD
  ∧ Datetime.ymd2ord (Datetime.Date 9999 12 31) = Datetime.MAX_ORD
  ∧ Datetime.ord2ymd 1 = Datetime.Date 1 1 1
  ∧ Datetime.ord2ymd (Datetime.ymd2ord (Datetime.Date 2024 2 29)) = Datetime.Date 2024 2 29
  ∧ Datetime.ord2ymd (Datetime.ymd2ord (Datetime.Date 2000 12 31)) = Datetime.Date 2000 12 31
  ∧ Datetime.ord2ymd (Datetime.ymd2ord (Datetime.Date 2100 3 1)) = Datetime.Date 2100 3 1
  ∧ Datetime.timestamp_ms 0 (Datetime.Date 2024 1 1) (Datetime.Time 10 0 5)
    = Ok 1704103205000
  ∧ Datetime.timestamp_ms 0 (Datetime.Date 1 1 1) (Datetime.Time 23 59 59)
    = Raise ValueError
  ∧ Datetime.timestamp_ms 0 (Datetime.Date 1 1 2) (Datetime.Time 0 0 0)
    = Ok (-62135510400000)
  ∧ Datetime.timestamp_ms 46800 (Datetime.Date 9999 12 31) (Datetime.Time 10 0 0)
    = Ok 253402203600000
  ∧ Datetime.timestamp_ms 46800 (Datetime.Date 9999 12 31) (Datetime.Time 11 0 0)
    = Raise ValueError
  ∧ Datetime.fromtimestamp 0 (-62135510400001) = Raise ValueError
  ∧ Datetime.fromtimestamp 0 (-62135510400000)
    = Ok (Datetime.Date 1 1 2, Datetime.Time 0 0 0)
  ∧ Datetime.fromtimestamp 0 253402300799999
    = Ok (Datetime.Date 9999 12 31, Datetime.Time 23 59 59)
  ∧ Datetime.fromtimestamp 0 253402300800000 = Raise ValueError
  ∧ Datetime.strftime_Ymd (Datetime.Date 999 1 1) = "999-01-01"
  ∧ Datetime.fromtimestamp 46800 (-1)
    = Ok (Datetime.Date 1970 1 1, Datetime.Time 12 59 59).
Proof. repeat split; reflexivity. Qed.

Example strptime_examples :
  Datetime.strptime_Ymd "20240101" = Ok (Datetime.Date 2024 1 1)
  ∧ Datetime.strptime_Ymd "2024131" = Ok (Datetime.Date 2024 1 31)
  ∧ Datetime.strptime_Ymd "20240230" = Raise ValueError
  ∧ Datetime.strptime_Ymd "00000101" = Raise ValueError
  ∧ Datetime.strptime_HMS "10:00:05" = Ok (Datetime.Time 10 0 5)
  ∧ Datetime.strptime_HMS "1:2:3" = Ok (Datetime.Time 1 2 3)
  ∧ Datetime.strptime_HMS "10:00:60" = Raise ValueError
  ∧ Datetime.strptime_HMS "24:00:00" = Raise ValueError
  ∧ Datetime.strptime_HMS "10:00" = Raise ValueError.
Proof. repeat split; reflexivity. Qed.

Example parse_filename_date_examples :
  parse_filename_date "app-20240101.txt" = Ok (Datetime.Date 2024 1 1)
  ∧ parse_filename_date "logs.d/app-20231231.log" = Ok (Datetime.Date 2023 12 31)
  ∧ parse_filename_date "a.txt" = Raise ValueError
  ∧ parse_filename_date "noextension" = Raise ValueError.
Proof. repeat split; reflexivity. Qed.

Example milliseconds_aggregation_examples :
  milliseconds_aggregation None = Ok None
  ∧ milliseconds_aggregation (Some "15m") = Ok (Some 900000)
  ∧ milliseconds_aggregation (Some "2H") = Ok (Some 7200000)
  ∧ milliseconds_aggregation (Some "1d") = Ok (Some 86400000)
  ∧ milliseconds_aggregation (Some "5x") = Raise SystemExit
  ∧ milliseconds_aggregation (Some "m") = Raise ValueError.
Proof. repeat split; reflexivity. Qed.

Example format_row_example :
  print_metrics_line 1 (MetricsTuple.mk "2024-01-01" "10:00" "svc.A" 5 50 80 250 1)
  = Ok ("2024-01-01 10:00  " +:+ ljust 70 "svc.A"
        +:+ "  count=   5   sum=    250   max=     80   avg=     50   errs=  1").
Proof. reflexivity. Qed.

(** *** The result monad *)

Lemma bind_Ok {A B} (f : A → result B) (a : A) : (x ← Ok a; f x) = f a.
Proof. reflexivity. Qed.

Lemma bind_inv_Ok {A B} (f : A → result B) (r : result A) (b : B) :
  (x ← r; f x) = Ok b → ∃ a, r = Ok a ∧ f a = Ok b.
Proof. destruct r as [a|e]; [exists a; split; [reflexivity | assumption] | discriminate]. Qed.

(** *** Decimal text of an integer *)

Lemma all_digits_uint (d : Decimal.uint) : all_digits (NilEmpty.string_of_uint d).
Proof. induction d; simpl; auto. Qed.

Lemma all_digits_NilZero (d : Decimal.uint) :
  all_digits (NilZero.string_of_uint d) ∧ NilZero.string_of_uint d ≠ "".
Proof.
  destruct d; simpl; (split; [| discriminate]);
    repeat split; try reflexivity; apply all_digits_uint.
Qed.

(** A run of digits closed by a hyphen is read back without ambiguity. *)
Lemma digits_hyphen_inj (a b r1 r2 : string) :
  all_digits a → all_digits b →
  a +:+ String "-" r1 = b +:+ String "-" r2 → a = b ∧ r1 = r2.
Proof.
  revert b. induction a as [|c a IH]; intros [|c' b] Ha Hb E; simpl in *.
  - by inversion E.
  - inversion E; subst. destruct Hb as [Hd _]. discriminate Hd.
  - inversion E; subst. destruct Ha as [Hd _]. discriminate Hd.
  - inversion E; subst. destruct Ha as [_ Ha], Hb as [_ Hb].
    destruct (IH b Ha Hb) as [-> ->]; auto.
Qed.

Lemma str_nonneg_digits (n : Z) : 0 ≤ n → all_digits (str n) ∧ str n ≠ "".
Proof.
  intros Hn. unfold str. destruct n as [|p|p]; [| | lia]; simpl.
  - split; [repeat split | discriminate].
  - apply all_digits_NilZero.
Qed.

Lemma str_neg_digits (n : Z) :
  n < 0 → ∃ s, str n = String "-" s ∧ all_digits s ∧ s ≠ "".
Proof.
  intros Hn. unfold str. destruct n as [|p|p]; [lia | lia |]; simpl.
  eexists; split; [reflexivity | apply all_digits_NilZero].
Qed.

Lemma str_inj (n m : Z) : str n = str m → n = m.
Proof.
  unfold str. intros E. apply DecimalZ.to_int_inj.
  assert (Hnn : ∀ z, Z.to_int z ≠ Decimal.Pos Decimal.Nil ∧ Z.to_int z ≠ Decimal.Neg Decimal.Nil).
  { intros [|p|p]; simpl; split; try discriminate;
      intros H; inversion H as [H']; by apply DecimalPos.Unsigned.to_uint_nonnil in H'. }
  apply (f_equal NilZero.int_of_string) in E.
  rewrite !NilZero.isi in E by apply Hnn. by inversion E.
Qed.

(** The dictionary key determines the pair it was built from. *)
Lemma metrics_key_inj (ms1 ms2 : Z) (name1 name2 : string) :
  metrics_key ms1 name1 = metrics_key ms2 name2 → ms1 = ms2 ∧ name1 = name2.
Proof.
  unfold metrics_key. intros E.
  destruct (Z.lt_ge_cases ms1 0) as [H1|H1], (Z.lt_ge_cases ms2 0) as [H2|H2].
  - destruct (str_neg_digits _ H1) as (s1 & E1 & D1 & _).
    destruct (str_neg_digits _ H2) as (s2 & E2 & D2 & _).
    rewrite E1, E2 in E. simpl in E. inversion E as [E'].
    destruct (digits_hyphen_inj _ _ _ _ D1 D2 E') as [Hs ->].
    split; [| reflexivity]. apply str_inj. by rewrite E1, E2, Hs.
  - destruct (str_neg_digits _ H1) as (s1 & E1 & _).
    destruct (str_nonneg_digits _ H2) as [D2 N2].
    rewrite E1 in E. destruct (str ms2) as [|c s2]; [done |].
    simpl in E. inversion E; subst. destruct D2 as [Hd _]. discriminate Hd.
  - destruct (str_neg_digits _ H2) as (s2 & E2 & _).
    destruct (str_nonneg_digits _ H1) as [D1 N1].
    rewrite E2 in E. destruct (str ms1) as [|c s1]; [done |].
    simpl in E. inversion E; subst. destruct D1 as [Hd _]. discriminate Hd.
  - destruct (str_nonneg_digits _ H1) as [D1 _].
    destruct (str_nonneg_digits _ H2) as [D2 _].
    destruct (digits_hyphen_inj _ _ _ _ D1 D2 E) as [Hs ->].
    split; [by apply str_inj | reflexivity].
Qed.

(** *** One merge *)

Lemma record_metrics_line_ok utcoffset (metrics : gmap string MetricsTuple)
  ms name fields o d t :
  observes fields o →
  Datetime.fromtimestamp utcoffset ms = Ok (d, t) →
  record_metrics_line utcoffset metrics ms name fields
  = Ok (<[metrics_key ms name :=
            merged d t name (default zero_tuple (metrics !! metrics_key ms name)) o]>
          metrics).
Proof.
  intros (Hc & Hm & Hs & He) Hd. unfold record_metrics_line.
  rewrite Hc, Hm, Hs, He, Hd. simpl.
  destruct (metrics !! metrics_key ms name); reflexivity.
Qed.

Lemma record_metrics_line_inv utcoffset (metrics metrics' : gmap string MetricsTuple)
  ms name fields :
  record_metrics_line utcoffset metrics ms name fields = Ok metrics' →
  ∃ o d t, observes fields o ∧ Datetime.fromtimestamp utcoffset ms = Ok (d, t)
    ∧ metrics' = <[metrics_key ms name :=
                     merged d t name (default zero_tuple (metrics !! metrics_key ms name)) o]>
                   metrics.
Proof.
  intros H. unfold record_metrics_line in H.
  apply bind_inv_Ok in H as (c & Hc & H).
  apply bind_inv_Ok in H as (m & Hm & H).
  apply bind_inv_Ok in H as (s & Hs & H).
  apply bind_inv_Ok in H as (e & He & H).
  apply bind_inv_Ok in H as ([d t] & Hd & H).
  exists (Observation c m s e), d, t. repeat split; try assumption.
  inversion H as [H']. destruct (metrics !! metrics_key ms name); reflexivity.
Qed.

Lemma merged_avg d t name old o :
  MetricsTuple.avg (merged d t name old o)
  = avg_of (MetricsTuple.sum (merged d t name old o))
      (MetricsTuple.count (merged d t name old o)).
Proof. reflexivity. Qed.

Lemma record_metrics_line_avg_invariant utcoffset
  (metrics metrics' : gmap string MetricsTuple) ms name fields :
  record_metrics_line utcoffset metrics ms name fields = Ok metrics' →
  avg_invariant metrics → avg_invariant metrics'.
Proof.
  intros H Hinv. apply record_metrics_line_inv in H as (o & d & t & _ & _ & ->).
  intros key mt. rewrite lookup_insert. case_decide.
  - intros [= <-]. apply merged_avg.
  - apply Hinv.
Qed.

(** C1 (as amended): one merge step looks up the tuple stored under the
    key, taking zeros when there is none, adds the record's count, max,
    sum and err.count to the stored ones, derives avg as sum div count
    when the new count is positive and as 0 otherwise, relabels the
    tuple with the bucket's date and time, and stores it under the same
    key, leaving every other entry as it was. *)
Theorem C1_merge_step utcoffset (metrics : gmap string MetricsTuple)
  ms name fields c m s e d t :
  field_value "count" fields = Ok c →
  field_value "max" fields = Ok m →
  field_value "sum" fields = Ok s →
  field_value "err.count" fields = Ok e →
  Datetime.fromtimestamp utcoffset ms = Ok (d, t) →
  let old := default zero_tuple (metrics !! metrics_key ms name) in
  let count := MetricsTuple.count old + c in
  let sum := MetricsTuple.sum old + s in
  record_metrics_line utcoffset metrics ms name fields
  = Ok (<[metrics_key ms name :=
            MetricsTuple.mk (Datetime.strftime_Ymd d) (Datetime.strftime_HM t) name
              count (if count >? 0 then sum / count else 0)
              (MetricsTuple.max old + m) sum (MetricsTuple.errcount old + e)]>
          metrics).
Proof.
  intros Hc Hm Hs He Hd.
  apply (record_metrics_line_ok utcoffset metrics ms name fields (Observation c m s e));
    [repeat split; assumption | assumption].
Qed.

Lemma C1_merge_step_witness :
  record_metrics_line 0
    {[ metrics_key 60000 "svc.A" := MetricsTuple.mk "1970-01-01" "00:01" "svc.A" 2 50 50 100 0 ]}
    60000 "svc.A" ["count=3"; "max=30"; "sum=150"; "err.count=1"]
  = Ok {[ metrics_key 60000 "svc.A" := MetricsTuple.mk "1970-01-01" "00:01" "svc.A" 5 50 80 250 1 ]}.
Proof.
  rewrite (C1_merge_step 0 _ 60000 "svc.A" _ 3 30 150 1
             (Datetime.Date 1970 1 1) (Datetime.Time 0 1 0));
    reflexivity.
Defined.

(** C1, the claim as written, fails: a record with a negative count
    leaves a non-zero count whose stored average is 0, not sum div
    count. *)
Lemma C1_counterexample :
  record_metrics_line 0 ∅ 0 "f" ["count=-2"; "sum=100"]
  = Ok {[ metrics_key 0 "f" := MetricsTuple.mk "1970-01-01" "00:00" "f" (-2) 0 0 100 0 ]}
  ∧ spec_avg 100 (-2) = -50
  ∧ spec_avg 100 (-2) ≠ 0.
Proof.
  split; [by vm_compute | split; [reflexivity |]].
  intros H. vm_compute in H. discriminate H.
Qed.

(** C3 (as amended): after every merge the tuple stored under the
    merged key has avg equal to sum div count when its count is
    positive and 0 otherwise, whatever avg the previous tuple held; and
    when every stored tuple obeyed this law before the merge, every
    stored tuple obeys it after. *)
Theorem C3_avg_rederived utcoffset (metrics metrics' : gmap string MetricsTuple)
  ms name fields :
  record_metrics_line utcoffset metrics ms name fields = Ok metrics' →
  (∃ mt, metrics' !! metrics_key ms name = Some mt
         ∧ MetricsTuple.avg mt
           = if MetricsTuple.count mt >? 0
             then MetricsTuple.sum mt / MetricsTuple.count mt else 0)
  ∧ (avg_invariant metrics → avg_invariant metrics').
Proof.
  intros H. split.
  - apply record_metrics_line_inv in H as (o & d & t & _ & _ & ->).
    eexists. split; [apply lookup_insert_eq | apply merged_avg].
  - by apply (record_metrics_line_avg_invariant utcoffset metrics metrics' ms name fields).
Qed.

Lemma C3_avg_rederived_witness :
  let stale : gmap string MetricsTuple :=
    {[ metrics_key 0 "f" := MetricsTuple.mk "1970-01-01" "00:00" "f" 2 999 7 10 0 ]} in
  let fresh : gmap string MetricsTuple :=
    {[ metrics_key 0 "f" := MetricsTuple.mk "1970-01-01" "00:00" "f" 5 4 7 20 0 ]} in
  record_metrics_line 0 stale 0 "f" ["count=3"; "sum=10"] = Ok fresh
  ∧ ∃ mt, fresh !! metrics_key 0 "f" = Some mt
          ∧ MetricsTuple.avg mt
            = if MetricsTuple.count mt >? 0
              then MetricsTuple.sum mt / MetricsTuple.count mt else 0.
Proof.
  intros stale fresh.
  assert (H : record_metrics_line 0 stale 0 "f" ["count=3"; "sum=10"] = Ok fresh)
    by (by vm_compute).
  split; [exact H |].
  exact (proj1 (C3_avg_rederived 0 stale fresh 0 "f" ["count=3"; "sum=10"] H)).
Defined.

(** C3, the claim as written, fails: after two merges that leave count
    -2 and sum 30 the stored average is 0, while sum div count is -15
    and the count is not 0. *)
Lemma C3_counterexample :
  (metrics ← record_metrics_line 0 ∅ 0 "f" ["count=1"; "sum=10"] ;
   record_metrics_line 0 metrics 0 "f" ["count=-3"; "sum=20"])
  = Ok {[ metrics_key 0 "f" := MetricsTuple.mk "1970-01-01" "00:00" "f" (-2) 0 0 30 0 ]}
  ∧ spec_avg 30 (-2) = -15.
Proof. split; [by vm_compute | reflexivity]. Qed.

(** A merge and the writing of another key commute: the merge neither
    reads nor overwrites the other entry. *)
Lemma record_metrics_line_frame utcoffset (metrics : gmap string MetricsTuple)
  ms name fields key v :
  metrics_key ms name ≠ key →
  record_metrics_line utcoffset (<[key := v]> metrics) ms name fields
  = (metrics' ← record_metrics_line utcoffset metrics ms name fields ;
     Ok (<[key := v]> metrics')).
Proof.
  intros Hne. unfold record_metrics_line.
  rewrite lookup_insert_ne by congruence.
  destruct (field_value "count" fields) as [c|]; [| reflexivity].
  destruct (field_value "max" fields) as [m|]; [| reflexivity].
  destruct (field_value "sum" fields) as [s|]; [| reflexivity].
  destruct (field_value "err.count" fields) as [e|]; [| reflexivity].
  destruct (Datetime.fromtimestamp utcoffset ms) as [[d t]|]; [| reflexivity].
  cbn. f_equal. apply insert_insert_ne. congruence.
Qed.

(** C7: two different (bucket, name) pairs never share a dictionary
    key, hyphens in names included; so a merge for one pair leaves the
    entry of every other pair as it was, and does the same whatever is
    stored for the other pair. *)
Theorem C7_keys_distinct (ms1 ms2 : Z) (name1 name2 : string) :
  (ms1, name1) ≠ (ms2, name2) →
  metrics_key ms1 name1 ≠ metrics_key ms2 name2
  ∧ (∀ utcoffset (metrics metrics' : gmap string MetricsTuple) fields,
       record_metrics_line utcoffset metrics ms1 name1 fields = Ok metrics' →
       metrics' !! metrics_key ms2 name2 = metrics !! metrics_key ms2 name2)
  ∧ (∀ utcoffset (metrics : gmap string MetricsTuple) fields v,
       record_metrics_line utcoffset (<[metrics_key ms2 name2 := v]> metrics)
         ms1 name1 fields
       = (metrics' ← record_metrics_line utcoffset metrics ms1 name1 fields ;
          Ok (<[metrics_key ms2 name2 := v]> metrics'))).
Proof.
  intros Hne.
  assert (Hk : metrics_key ms1 name1 ≠ metrics_key ms2 name2).
  { intros E. apply metrics_key_inj in E as [-> ->]. by apply Hne. }
  split; [exact Hk |]. split.
  - intros utcoffset metrics metrics' fields H.
    apply record_metrics_line_inv in H as (o & d & t & _ & _ & ->).
    by apply lookup_insert_ne.
  - intros utcoffset metrics fields v. by apply record_metrics_line_frame.
Qed.

Lemma C7_keys_distinct_witness :
  (17, "04-a") ≠ (1704, "a") ∧ metrics_key 17 "04-a" ≠ metrics_key 1704 "a".
Proof.
  assert (H : (17, "04-a") ≠ (1704, "a")) by discriminate.
  split; [exact H |].
  exact (proj1 (C7_keys_distinct 17 1704 "04-a" "a" H)).
Defined.

(** *** A run of merges under one key *)

Lemma Zsum_Permutation (l l' : list Z) : l ≡ₚ l' → Zsum l = Zsum l'.
Proof.
  unfold Zsum. induction 1 as [| x l l' _ IH | x y l | l l' l'' _ IH1 _ IH2];
    simpl; lia.
Qed.

Lemma total_Permutation (os os' : list observation) : os ≡ₚ os' → total os = total os'.
Proof.
  intros H. unfold total. f_equal; apply Zsum_Permutation; by apply fmap_Permutation.
Qed.

Lemma merged_total d t name old o os :
  merged d t name (merged d t name old o) (total os)
  = merged d t name old (total (o :: os)).
Proof.
  unfold merged, total. cbn [MetricsTuple.count MetricsTuple.sum MetricsTuple.max
    MetricsTuple.errcount o_count o_max o_sum o_errcount fmap list_fmap Zsum foldr].
  fold (Zsum (o_count <$> os)) (Zsum (o_sum <$> os)) (Zsum (o_max <$> os))
    (Zsum (o_errcount <$> os)).
  rewrite !Z.add_assoc. reflexivity.
Qed.

Lemma merged_total_nil d t name old o :
  merged d t name old o = merged d t name old (total [o]).
Proof.
  unfold merged, total. cbn. rewrite !Z.add_0_r. reflexivity.
Qed.

Lemma merge_all_ok utcoffset ms name d t obs vals :
  Datetime.fromtimestamp utcoffset ms = Ok (d, t) →
  Forall2 observes obs vals →
  ∀ (metrics : gmap string MetricsTuple) fields o,
    observes fields o →
    merge_all utcoffset metrics ms name (fields :: obs)
    = Ok (<[metrics_key ms name :=
              merged d t name (default zero_tuple (metrics !! metrics_key ms name))
                (total (o :: vals))]> metrics).
Proof.
  intros Hd. induction 1 as [| fields' o' obs vals Ho' _ IH]; intros metrics fields o Ho.
  - cbn [merge_all]. rewrite (record_metrics_line_ok _ _ _ _ _ o d t Ho Hd).
    rewrite bind_Ok. by rewrite <- merged_total_nil.
  - change (merge_all utcoffset metrics ms name (fields :: fields' :: obs))
      with (m ← record_metrics_line utcoffset metrics ms name fields ;
            merge_all utcoffset m ms name (fields' :: obs)).
    rewrite (record_metrics_line_ok _ _ _ _ _ o d t Ho Hd), bind_Ok.
    rewrite (IH _ fields' o' Ho').
    rewrite lookup_insert_eq, insert_insert_eq. cbn [default]. unfold id.
    by rewrite merged_total.
Qed.

(** C2: when the records of a sequence share a key, the stored count,
    sum, max and errcount end as what was stored before plus the sum of
    that field over the whole sequence, whatever the order of the
    records; max is added up like the others. *)
Theorem C2_sums_order_independent utcoffset (metrics : gmap string MetricsTuple)
  ms name obs obs' vals d t :
  Datetime.fromtimestamp utcoffset ms = Ok (d, t) →
  Forall2 observes obs vals →
  obs ≠ [] →
  obs ≡ₚ obs' →
  let old := default zero_tuple (metrics !! metrics_key ms name) in
  let count := MetricsTuple.count old + Zsum (o_count <$> vals) in
  let sum := MetricsTuple.sum old + Zsum (o_sum <$> vals) in
  let max := MetricsTuple.max old + Zsum (o_max <$> vals) in
  let errcount := MetricsTuple.errcount old + Zsum (o_errcount <$> vals) in
  let final :=
    MetricsTuple.mk (Datetime.strftime_Ymd d) (Datetime.strftime_HM t) name
      count (avg_of sum count) max sum errcount in
  merge_all utcoffset metrics ms name obs = Ok (<[metrics_key ms name := final]> metrics)
  ∧ merge_all utcoffset metrics ms name obs' = Ok (<[metrics_key ms name := final]> metrics).
Proof.
  intros Hd Hobs Hne Hperm. cbv zeta.
  change (MetricsTuple.mk _ _ _ _ _ _ _ _)
    with (merged d t name (default zero_tuple (metrics !! metrics_key ms name)) (total vals)).
  split.
  - destruct Hobs as [| fields o obs vals Ho Hobs]; [done |].
    by apply merge_all_ok.
  - destruct (Permutation_Forall2 Hperm Hobs) as (vals' & Hv & Hobs').
    rewrite (total_Permutation _ _ Hv).
    destruct Hobs' as [| fields o obs' vals' Ho Hobs'].
    + apply Permutation_nil_r in Hperm. done.
    + by apply merge_all_ok.
Qed.

Lemma C2_sums_order_independent_witness :
  let a := ["count=2"; "max=50"; "sum=100"; "err.count=0"] in
  let b := ["count=3"; "max=30"; "sum=150"; "err.count=1"] in
  let final := MetricsTuple.mk "1970-01-01" "00:00" "svc.A" 5 50 80 250 1 in
  merge_all 0 ∅ 0 "svc.A" [a; b] = Ok (<[metrics_key 0 "svc.A" := final]> ∅)
  ∧ merge_all 0 ∅ 0 "svc.A" [b; a] = Ok (<[metrics_key 0 "svc.A" := final]> ∅).
Proof.
  intros a b final.
  assert (Hd : Datetime.fromtimestamp 0 0
               = Ok (Datetime.Date 1970 1 1, Datetime.Time 0 0 0)) by reflexivity.
  assert (Hobs : Forall2 observes [a; b]
                   [Observation 2 50 100 0; Observation 3 30 150 1])
    by (repeat constructor).
  assert (Hne : [a; b] ≠ []) by discriminate.
  exact (C2_sums_order_independent 0 ∅ 0 "svc.A" [a; b] [b; a] _ _ _
           Hd Hobs Hne (perm_swap b a [])).
Defined.

(** *** Field extraction *)

(** C10: [field_value] returns the integer read from the first field,
    in list order, that starts with the requested name, reading the
    text from position len(name)+1 on; it falls back to 0 exactly when
    no field starts with the name.  So of two fields with the same name
    the first is used, and a field whose name only begins with the
    requested name is taken in place of an exact match further on. *)
Theorem C10_field_value_first_match :
  (∀ field_name fields,
     field_value field_name fields
     = match List.find (λ field, startswith field field_name) fields with
       | Some field => int (slice field (Some (len field_name + 1)) None)
       | None => Ok 0
       end)
  ∧ (∀ rest, field_value "count" ("count=2" :: "count=3" :: rest) = Ok 2)
  ∧ (∀ rest, field_value "count" ("counts7" :: "count=3" :: rest) = Ok 7)
  ∧ (∀ rest, field_value "count" ("countx=7" :: "count=3" :: rest) = Raise ValueError)
  ∧ (∀ rest, field_value "max" ("maximum=9" :: "max=3" :: rest) = Raise ValueError).
Proof.
  split; [| repeat split; reflexivity].
  intros field_name fields. induction fields as [| field rest IH]; simpl.
  - reflexivity.
  - destruct (startswith field field_name); [reflexivity | exact IH].
Qed.

(** *** The Bucketizer *)

Lemma div_interval (w k x : Z) : 0 < w → (w * k ≤ x < w * (k + 1) ↔ x / w = k).
Proof.
  intros Hw. split.
  - intros [H1 H2]. symmetry. apply (Z.div_unique_pos x w k (x - w * k)); lia.
  - intros <-. split.
    + apply Z.mul_div_le; lia.
    + rewrite Z.mul_add_distr_l, Z.mul_1_r.
      pose proof (Z.mod_pos_bound x w Hw). pose proof (Z.div_mod x w). lia.
Qed.

Lemma calculate_aggregation_period_start_ms_nonzero utcoffset w d t ts :
  w ≠ 0 →
  Datetime.timestamp_ms utcoffset d t = Ok ts →
  calculate_aggregation_period_start_ms utcoffset (Some w) d t = Ok (w * (ts / w)).
Proof.
  intros Hw Hts. unfold calculate_aggregation_period_start_ms, floordiv.
  rewrite Hts, bind_Ok.
  destruct (Z.eqb_spec w 0) as [->|_]; [done |].
  rewrite bind_Ok. unfold mret, result_ret. f_equal. apply Z.mul_comm.
Qed.

(** C4: with a positive width w the Bucketizer returns w * floor(t / w),
    t being the instant of the date and time in milliseconds; two
    instants get the same bucket exactly when one interval
    [w*k, w*(k+1)) holds both; without a width it returns t itself. *)
Theorem C4_bucketizer utcoffset (d : Datetime.date) (t : Datetime.time) (w ts : Z) :
  0 < w →
  Datetime.timestamp_ms utcoffset d t = Ok ts →
  calculate_aggregation_period_start_ms utcoffset (Some w) d t = Ok (w * (ts / w))
  ∧ (∀ d' t' ts',
       Datetime.timestamp_ms utcoffset d' t' = Ok ts' →
       calculate_aggregation_period_start_ms utcoffset (Some w) d t
       = calculate_aggregation_period_start_ms utcoffset (Some w) d' t'
       ↔ ∃ k, w * k ≤ ts < w * (k + 1) ∧ w * k ≤ ts' < w * (k + 1))
  ∧ calculate_aggregation_period_start_ms utcoffset None d t = Ok ts.
Proof.
  intros Hw Hts. split; [| split].
  - apply calculate_aggregation_period_start_ms_nonzero; [lia | exact Hts].
  - intros d' t' ts' Hts'.
    rewrite (calculate_aggregation_period_start_ms_nonzero _ w d t ts) by (lia || done).
    rewrite (calculate_aggregation_period_start_ms_nonzero _ w d' t' ts') by (lia || done).
    split.
    + intros [= E]. exists (ts / w).
      assert (E' : ts' / w = ts / w) by nia.
      split; apply div_interval; auto.
    + intros (k & H1 & H2).
      apply div_interval in H1, H2; [| assumption ..]. by rewrite H1, H2.
  - unfold calculate_aggregation_period_start_ms. by rewrite Hts.
Qed.

Lemma C4_bucketizer_witness :
  calculate_aggregation_period_start_ms 0 (Some 60000)
    (Datetime.Date 2024 1 1) (Datetime.Time 10 0 5)
  = Ok 1704103200000
  ∧ calculate_aggregation_period_start_ms 0 None
      (Datetime.Date 2024 1 1) (Datetime.Time 10 0 5)
    = Ok 1704103205000.
Proof.
  destruct (C4_bucketizer 0 (Datetime.Date 2024 1 1) (Datetime.Time 10 0 5) 60000
              1704103205000 eq_refl eq_refl) as (H1 & _ & H3).
  split; [exact H1 | exact H3].
Defined.

(** C6: the code does not check the window width.  A width of 0 passes
    the --aggregate parsing and makes the Bucketizer divide by zero:
    ZeroDivisionError, which ends the run at its first record.  A
    negative width passes too and gives w * floor(t / w), which lies at
    or after the instant, less than one width away: the end of the
    window of t, not its start.  Neither is turned down with a
    configuration error. *)
Theorem C6_nonpositive_width utcoffset (d : Datetime.date) (t : Datetime.time)
  (w ts : Z) :
  w ≤ 0 →
  Datetime.timestamp_ms utcoffset d t = Ok ts →
  calculate_aggregation_period_start_ms utcoffset (Some w) d t
  = (if w =? 0 then Raise ZeroDivisionError else Ok (w * (ts / w)))
  ∧ calculate_aggregation_period_start_ms utcoffset (Some w) d t ≠ Raise SystemExit
  ∧ (w < 0 → ts ≤ w * (ts / w) < ts - w)
  ∧ milliseconds_aggregation (Some "0m") = Ok (Some 0)
  ∧ milliseconds_aggregation (Some "-5m") = Ok (Some (-300000))
  ∧ process_files 0
      [("app-20240101.txt",
        ["10:00:05, tm, svc.A, count=2, max=50, sum=100, err.count=0"])]
      (Some 0) None ∅
    = Raise ZeroDivisionError.
Proof.
  intros _ Hts.
  assert (E : calculate_aggregation_period_start_ms utcoffset (Some w) d t
              = (if w =? 0 then Raise ZeroDivisionError else Ok (w * (ts / w)))).
  { destruct (Z.eqb_spec w 0) as [->|Hw].
    - unfold calculate_aggregation_period_start_ms. by rewrite Hts.
    - by apply calculate_aggregation_period_start_ms_nonzero. }
  split; [exact E |]. split; [| split; [| split; [| split]]]; try reflexivity.
  - rewrite E. destruct (w =? 0); discriminate.
  - intros Hw. pose proof (Z.mod_neg_bound ts w Hw). pose proof (Z.div_mod ts w). lia.
Qed.

Lemma C6_nonpositive_width_witness :
  calculate_aggregation_period_start_ms 0 (Some (-60000))
    (Datetime.Date 2024 1 1) (Datetime.Time 10 0 5)
  = Ok 1704103260000.
Proof.
  exact (proj1 (C6_nonpositive_width 0 (Datetime.Date 2024 1 1) (Datetime.Time 10 0 5)
                  (-60000) 1704103205000 ltac:(discriminate) eq_refl)).
Defined.

(** *** The filter *)

(** C8: without a pattern every name passes the filter; with the
    pattern "^foo" the name "barfoo" is rejected and the names "foobar"
    and "FOOBAR" pass. *)
Theorem C8_filter :
  regex_func_of None = Ok None
  ∧ (∀ name, passes_filter None name = true)
  ∧ ∃ regex_func,
      regex_func_of (Some "^foo") = Ok (Some regex_func)
      ∧ passes_filter (Some regex_func) "barfoo" = false
      ∧ passes_filter (Some regex_func) "foobar" = true
      ∧ passes_filter (Some regex_func) "FOOBAR" = true.
Proof.
  split; [reflexivity |]. split; [reflexivity |].
  eexists. split; [reflexivity |]. repeat split; reflexivity.
Qed.

(** *** Rendering *)

Lemma unit_divisor_cases (units : string) :
  unit_divisor units = 1 ∨ unit_divisor units = 1000 ∨ unit_divisor units = 1000000.
Proof.
  unfold unit_divisor. destruct (String.eqb units "ms"); [by right; left |].
  destruct (String.eqb units "sec"); [by right; right | by left].
Qed.

(** C9: a printed line shows sum, max and avg integer-divided by the
    unit divisor, and count and errcount as stored: the text of the
    line is the two labels, the name in its column, and after count=,
    sum=, max=, avg= and errs= the decimal text of the count, of the
    three quotients and of the error count, each padded on the left to
    its width.  The divisor is 1 without a unit flag (and for us),
    1000 for ms and 1000000 for sec.  Every tuple of the report gets
    its line.  A stored sum of 1500000 is shown as 1 under sec, 1500
    under ms and 1500000 without a flag. *)
Theorem C9_unit_conversion :
  unit_divisor "ns" = 1 ∧ unit_divisor "us" = 1
  ∧ unit_divisor "ms" = 1000 ∧ unit_divisor "sec" = 1000000
  ∧ (∀ units mt,
       print_metrics_line (unit_divisor units) mt
       = Ok (MetricsTuple.date mt +:+ " " +:+ MetricsTuple.time mt +:+ "  "
             +:+ ljust 70 (abbreviated_name (MetricsTuple.name mt))
             +:+ "  count=" +:+ rjust 4 (str (MetricsTuple.count mt))
             +:+ "   sum=" +:+ rjust 7 (str (MetricsTuple.sum mt / unit_divisor units))
             +:+ "   max=" +:+ rjust 7 (str (MetricsTuple.max mt / unit_divisor units))
             +:+ "   avg=" +:+ rjust 7 (str (MetricsTuple.avg mt / unit_divisor units))
             +:+ "   errs=" +:+ rjust 3 (str (MetricsTuple.errcount mt))))
  ∧ (∀ units sorted_metrics, ∃ lines,
       print_metrics (unit_divisor units) sorted_metrics = Ok lines
       ∧ Forall2 (λ mt line, print_metrics_line (unit_divisor units) mt = Ok line)
           sorted_metrics lines)
  ∧ (let mt := MetricsTuple.mk "2024-01-01" "10:00" "svc.A" 5 300000 800000 1500000 7 in
     print_metrics (unit_divisor "sec") [mt]
     = Ok ["2024-01-01 10:00  svc.A                                                                   count=   5   sum=      1   max=      0   avg=      0   errs=  7"]
     ∧ print_metrics (unit_divisor "ms") [mt]
       = Ok ["2024-01-01 10:00  svc.A                                                                   count=   5   sum=   1500   max=    800   avg=    300   errs=  7"]
     ∧ print_metrics (unit_divisor "ns") [mt]
       = Ok ["2024-01-01 10:00  svc.A                                                                   count=   5   sum=1500000   max= 800000   avg= 300000   errs=  7"])
  ∧ fmt_d 7 (1500000 / unit_divisor "sec") = "      1"
  ∧ fmt_d 7 (1500000 / unit_divisor "ms") = "   1500"
  ∧ fmt_d 7 (1500000 / unit_divisor "ns") = "1500000".
Proof.
  assert (Hline : ∀ units mt,
            print_metrics_line (unit_divisor units) mt
            = Ok (MetricsTuple.date mt +:+ " " +:+ MetricsTuple.time mt +:+ "  "
                  +:+ ljust 70 (abbreviated_name (MetricsTuple.name mt))
                  +:+ "  count=" +:+ rjust 4 (str (MetricsTuple.count mt))
                  +:+ "   sum=" +:+ rjust 7 (str (MetricsTuple.sum mt / unit_divisor units))
                  +:+ "   max=" +:+ rjust 7 (str (MetricsTuple.max mt / unit_divisor units))
                  +:+ "   avg=" +:+ rjust 7 (str (MetricsTuple.avg mt / unit_divisor units))
                  +:+ "   errs=" +:+ rjust 3 (str (MetricsTuple.errcount mt)))).
  { intros units mt. unfold print_metrics_line, floordiv.
    destruct (unit_divisor_cases units) as [-> | [-> | ->]]; reflexivity. }
  do 4 (split; [reflexivity |]). split; [exact Hline |].
  split; [| repeat split; reflexivity].
  intros units sorted_metrics.
  induction sorted_metrics as [| mt rest (lines & Hrest & Hall)].
  - exists []. split; [reflexivity | constructor].
  - eexists (_ :: lines). cbn [print_metrics]. rewrite Hline, bind_Ok, Hrest, bind_Ok.
    split; [reflexivity |]. constructor; [apply Hline | exact Hall].
Qed.

(** *** A whole run *)

Lemma read_line_record utcoffset file_date aggregation_func regex_func
  (metrics : gmap string MetricsTuple) line raw_time type name fields line_time ms :
  split line ", " = raw_time :: type :: name :: fields →
  Datetime.strptime_HMS raw_time = Ok line_time →
  aggregation_func file_date line_time = Ok ms →
  type = TIMING_RECORD →
  passes_filter regex_func name = true →
  read_line utcoffset file_date aggregation_func regex_func metrics line
  = record_metrics_line utcoffset metrics ms name fields.
Proof.
  intros Hsplit Htime Hms -> Hpass. unfold read_line.
  rewrite Hsplit. cbn [getitem lookup list_lookup]. rewrite !bind_Ok.
  rewrite Htime, bind_Ok, Hms, bind_Ok, Hpass. reflexivity.
Qed.

(** With a one-minute window and a zone offset of whole minutes, the
    bucket starts at the whole minute of the wall clock. *)
Lemma in_years_bounds (wall : Z) :
  Datetime.in_years wall = true ↔ -62135596800 ≤ wall < 253402300800.
Proof.
  unfold Datetime.in_years, Datetime.EPOCH_ORD, Datetime.MAX_ORD. cbv zeta.
  rewrite andb_true_iff, !Z.leb_le. Z.div_mod_to_equations. lia.
Qed.

Lemma timestamp_ms_ok utcoffset d t :
  -62135596800 ≤ Datetime.wall_seconds d t + utcoffset < 253402300800 →
  -62135596800 ≤ Datetime.wall_seconds d t - 86400 < 253402300800 →
  Datetime.timestamp_ms utcoffset d t
  = Ok ((Datetime.wall_seconds d t - utcoffset) * 1000).
Proof.
  intros H1 H2. unfold Datetime.timestamp_ms.
  apply in_years_bounds in H1, H2. by rewrite H1, H2.
Qed.

Lemma minute_bucket utcoffset d t :
  (60 | utcoffset) →
  Datetime.timestamp_ms utcoffset d t
  = Ok ((Datetime.wall_seconds d t - utcoffset) * 1000) →
  calculate_aggregation_period_start_ms utcoffset (Some 60000) d t
  = Ok (60000 * (Datetime.wall_seconds d t / 60) - 1000 * utcoffset).
Proof.
  intros [q ->] Hts.
  rewrite (calculate_aggregation_period_start_ms_nonzero _ 60000 _ _ _) by done.
  f_equal. generalize (Datetime.wall_seconds d t). intros w.
  Z.div_mod_to_equations. lia.
Qed.

Lemma fromtimestamp_minute utcoffset (w : Z) :
  Datetime.fromtimestamp utcoffset (60000 * w - 1000 * utcoffset)
  = Datetime.fromtimestamp 0 (60000 * w).
Proof.
  unfold Datetime.fromtimestamp.
  replace ((60000 * w - 1000 * utcoffset) / 1000 + utcoffset) with (60000 * w / 1000 + 0)
    by (Z.div_mod_to_equations; lia).
  reflexivity.
Qed.

(** C5: the two lines of the example, in a file dated 2024-01-01 and
    with a one-minute window, leave one tuple, for svc.A, labelled
    2024-01-01 10:00, with count 5, sum 250, max 80, avg 50 and
    errcount 1.  The local zone is any whose offset from UTC is a whole
    number of minutes, less than a day. *)
Theorem C5_end_to_end utcoffset (terminated : bool) :
  (60 | utcoffset) →
  -86400 < utcoffset < 86400 →
  milliseconds_aggregation (Some "1m") = Ok (Some 60000)
  ∧ process_files utcoffset
      [("app-20240101.txt",
        ["10:00:05, tm, svc.A, count=2, max=50, sum=100, err.count=0" +:+ eol true;
         "10:00:20, tm, svc.A, count=3, max=30, sum=150, err.count=1" +:+ eol terminated])]
      (Some 60000) None ∅
    = Ok {[ metrics_key (1704103200000 - 1000 * utcoffset) "svc.A" :=
              MetricsTuple.mk "2024-01-01" "10:00" "svc.A" 5 50 80 250 1 ]}.
Proof.
  intros Hoff Hday. split; [reflexivity |].
  unfold process_files. cbn [regex_func_of]. rewrite bind_Ok.
  cbn [read_files]. unfold read_file.
  replace (parse_filename_date "app-20240101.txt") with (Ok (Datetime.Date 2024 1 1))
    by reflexivity.
  rewrite bind_Ok. cbn [read_lines].
  set (d := Datetime.Date 2024 1 1). set (t := Datetime.Time 10 0 0).
  set (ms := 60000 * 28401720 - 1000 * utcoffset).
  assert (Hd : Datetime.fromtimestamp utcoffset ms = Ok (d, t)).
  { unfold ms. rewrite fromtimestamp_minute. reflexivity. }
  assert (Hms : ∀ sec, 0 ≤ sec < 60 →
            calculate_aggregation_period_start_ms utcoffset (Some 60000)
              (Datetime.Date 2024 1 1) (Datetime.Time 10 0 sec) = Ok ms).
  { intros sec Hsec. rewrite minute_bucket; [| exact Hoff |].
    - f_equal. unfold ms. f_equal. f_equal.
      change (Datetime.wall_seconds _ _) with (1704103200 + sec).
      Z.div_mod_to_equations. lia.
    - apply timestamp_ms_ok;
        change (Datetime.wall_seconds _ _) with (1704103200 + sec); lia. }
  rewrite (read_line_record utcoffset _ _ None ∅ _ "10:00:05" "tm" "svc.A"
             ["count=2"; "max=50"; "sum=100"; String "e" ("rr.count=0" +:+ eol true)]
             (Datetime.Time 10 0 5) ms);
    [| reflexivity | reflexivity | by apply Hms | reflexivity | reflexivity].
  rewrite (record_metrics_line_ok utcoffset ∅ ms "svc.A" _ (Observation 2 50 100 0) d t);
    [| repeat split; reflexivity | exact Hd].
  rewrite bind_Ok.
  rewrite (read_line_record utcoffset _ _ None _ _ "10:00:20" "tm" "svc.A"
             ["count=3"; "max=30"; "sum=150"; String "e" ("rr.count=1" +:+ eol terminated)]
             (Datetime.Time 10 0 20) ms);
    [| by destruct terminated | reflexivity | by apply Hms
     | reflexivity | reflexivity].
  rewrite (record_metrics_line_ok utcoffset _ ms "svc.A" _ (Observation 3 30 150 1) d t);
    [| repeat split; by destruct terminated | exact Hd].
  rewrite bind_Ok, lookup_insert_eq, lookup_empty, insert_insert_eq, insert_empty.
  reflexivity.
Qed.

Lemma C5_end_to_end_witness :
  (60 | 46800) ∧ -86400 < 46800 < 86400
  ∧ process_files 46800
      [("app-20240101.txt",
        ["10:00:05, tm, svc.A, count=2, max=50, sum=100, err.count=0" +:+ eol true;
         "10:00:20, tm, svc.A, count=3, max=30, sum=150, err.count=1" +:+ eol false])]
      (Some 60000) None ∅
    = Ok {[ metrics_key 1704056400000 "svc.A" :=
              MetricsTuple.mk "2024-01-01" "10:00" "svc.A" 5 50 80 250 1 ]}.
Proof.
  assert (H : (60 | 46800)) by (exists 780; reflexivity).
  assert (H' : -86400 < 46800 < 86400) by lia.
  split; [exact H |]. split; [exact H' |].
  exact (proj2 (C5_end_to_end 46800 false H H')).
Defined.

(** *** The reading loop *)

Lemma read_line_avg_invariant utcoffset file_date aggregation_func regex_func
  (metrics metrics' : gmap string MetricsTuple) line :
  read_line utcoffset file_date aggregation_func regex_func metrics line = Ok metrics' →
  avg_invariant metrics → avg_invariant metrics'.
Proof.
  intros H Hinv. unfold read_line in H.
  apply bind_inv_Ok in H as (raw_time & _ & H).
  apply bind_inv_Ok in H as (type & _ & H).
  apply bind_inv_Ok in H as (name & _ & H).
  apply bind_inv_Ok in H as (line_time & _ & H).
  apply bind_inv_Ok in H as (ms & _ & H).
  destruct (String.eqb type TIMING_RECORD); [| by inversion H; subst].
  destruct (passes_filter regex_func name); [| by inversion H; subst].
  by apply (record_metrics_line_avg_invariant _ _ _ _ _ _ H).
Qed.

Lemma read_lines_avg_invariant utcoffset file_date aggregation_func regex_func file :
  ∀ metrics metrics' : gmap string MetricsTuple,
    read_lines utcoffset file_date aggregation_func regex_func metrics file = Ok metrics' →
    avg_invariant metrics → avg_invariant metrics'.
Proof.
  induction file as [| line rest IH]; intros metrics metrics' H Hinv.
  - by inversion H; subst.
  - cbn [read_lines] in H. apply bind_inv_Ok in H as (m1 & H1 & H).
    apply (IH m1 metrics' H). by apply (read_line_avg_invariant _ _ _ _ _ _ _ H1).
Qed.

Lemma read_files_avg_invariant utcoffset aggregation_ms regex_func files :
  ∀ metrics metrics' : gmap string MetricsTuple,
    read_files utcoffset files aggregation_ms regex_func metrics = Ok metrics' →
    avg_invariant metrics → avg_invariant metrics'.
Proof.
  induction files as [| [filename file] rest IH]; intros metrics metrics' H Hinv.
  - by inversion H; subst.
  - cbn [read_files] in H. apply bind_inv_Ok in H as (m1 & H1 & H).
    apply (IH m1 metrics' H). unfold read_file in H1.
    apply bind_inv_Ok in H1 as (file_date & _ & H1).
    by apply (read_lines_avg_invariant _ _ _ _ _ _ _ H1).
Qed.

(** Every tuple of a completed run has its average derived from its sum
    and count. *)
Lemma process_files_avg_invariant utcoffset files aggregation_ms grep_regex
  (metrics : gmap string MetricsTuple) :
  process_files utcoffset files aggregation_ms grep_regex ∅ = Ok metrics →
  avg_invariant metrics.
Proof.
  intros H. unfold process_files in H. apply bind_inv_Ok in H as (regex_func & _ & H).
  apply (read_files_avg_invariant _ _ _ _ _ _ H). intros key mt Hl.
  by rewrite lookup_empty in Hl.
Qed.

(** On lines that share a bucket and a name, the loop of [read_file] is
    the run of merges [merge_all]. *)
Lemma read_lines_merge_all utcoffset file_date aggregation_func regex_func
  ms name file obs :
  passes_filter regex_func name = true →
  Forall2 (keyed_line file_date aggregation_func ms name) file obs →
  ∀ metrics : gmap string MetricsTuple,
    read_lines utcoffset file_date aggregation_func regex_func metrics file
    = merge_all utcoffset metrics ms name obs.
Proof.
  intros Hpass. induction 1 as [| line fields file obs Hline _ IH]; intros metrics.
  - reflexivity.
  - destruct Hline as (raw_time & line_time & Hsplit & Htime & Hms).
    cbn [read_lines merge_all].
    rewrite (read_line_record _ _ _ _ _ _ _ _ _ _ _ _ Hsplit Htime Hms eq_refl Hpass).
    destruct (record_metrics_line utcoffset metrics ms name fields) as [m1|e];
      [| reflexivity].
    rewrite !bind_Ok. apply IH.
Qed.

(** ** Further properties of the script *)

(** *** Strings *)

Lemma append_cons (c : ascii) (a b : string) : String c a +:+ b = String c (a +:+ b).
Proof. reflexivity. Qed.

Lemma append_nil_l (b : string) : "" +:+ b = b.
Proof. reflexivity. Qed.

Lemma append_nil_r (s : string) : s +:+ "" = s.
Proof. induction s as [| c s IH]; [reflexivity | by rewrite append_cons, IH]. Qed.

Lemma append_assoc (a b c : string) : (a +:+ b) +:+ c = a +:+ (b +:+ c).
Proof. induction a as [| x a IH]; [reflexivity | by rewrite !append_cons, IH]. Qed.

Lemma strlen_append (a b : string) : strlen (a +:+ b) = (strlen a + strlen b)%nat.
Proof.
  induction a as [| x a IH]; [reflexivity |].
  rewrite append_cons. cbn [strlen]. by rewrite IH.
Qed.

Lemma startswith_append (p r : string) : startswith (p +:+ r) p = true.
Proof.
  induction p as [| c p IH]; [by destruct r |].
  rewrite append_cons. cbn [startswith]. by rewrite Ascii.eqb_refl.
Qed.

Lemma drop_chars_append (a b : string) : drop_chars (strlen a) (a +:+ b) = b.
Proof.
  induction a as [| x a IH]; [by destruct b |].
  rewrite append_cons. exact IH.
Qed.

Lemma take_chars_append (a b : string) : take_chars (strlen a) (a +:+ b) = a.
Proof.
  induction a as [| x a IH]; [by destruct b |].
  rewrite append_cons. cbn [strlen take_chars]. by rewrite IH.
Qed.

Lemma take_chars_all (n : nat) (s : string) : (strlen s ≤ n)%nat → take_chars n s = s.
Proof.
  revert n. induction s as [| c s IH]; intros [| n] H; simpl in *; try reflexivity.
  - lia.
  - rewrite IH by lia. reflexivity.
Qed.

(** [(a + b)[len(a):]] is [b]. *)
Lemma slice_suffix (a b : string) : slice (a +:+ b) (Some (len a)) None = b.
Proof.
  unfold slice, clamp_index, len. rewrite strlen_append.
  destruct (Z.ltb_spec (Z.of_nat (strlen a)) 0) as [H|_]; [lia |].
  rewrite Z.min_l by lia. rewrite Nat2Z.id, drop_chars_append.
  apply take_chars_all. lia.
Qed.

(** *** Reading back the decimal text of an integer *)

Lemma uint_value_pos (d : Decimal.uint) (acc : positive) :
  uint_value (Z.pos acc) d = Z.pos (Pos.of_uint_acc d acc).
Proof.
  revert acc. induction d; intros acc; cbn [uint_value Pos.of_uint_acc];
    try reflexivity;
    match goal with
    | |- uint_value ?z _ = Z.pos (Pos.of_uint_acc _ ?p) =>
        replace z with (Z.pos p) by lia; apply IHd
    end.
Qed.

Lemma uint_value_0 (d : Decimal.uint) : uint_value 0 d = Z.of_uint d.
Proof.
  unfold Z.of_uint. induction d; cbn [uint_value Pos.of_uint]; try reflexivity;
    try exact IHd;
    match goal with
    | |- uint_value ?z _ = Z.of_N (N.pos (Pos.of_uint_acc _ ?p)) =>
        change z with (Z.pos p); apply uint_value_pos
    end.
Qed.

Lemma int_digits_digit (c : ascii) (v acc : Z) (prev : bool) (s : string) :
  digit_value c = Some v →
  int_digits acc prev (String c s) = int_digits (10 * acc + v) true s.
Proof. intros H. cbn [int_digits]. by rewrite H. Qed.

Lemma int_digits_uint (d : Decimal.uint) (acc : Z) (prev : bool) :
  prev = true ∨ d ≠ Decimal.Nil →
  int_digits acc prev (NilEmpty.string_of_uint d) = Some (uint_value acc d).
Proof.
  revert acc prev. induction d; intros acc prev Hp;
    cbn [NilEmpty.string_of_uint uint_value].
  { destruct Hp as [-> | Hp]; [reflexivity | done]. }
  all: match goal with
       | |- int_digits _ _ (String _ _) = Some (uint_value ?z _) =>
           erewrite int_digits_digit by reflexivity;
           rewrite IHd by (by left); do 2 f_equal;
           first [reflexivity | apply Z.add_0_r]
       end.
Qed.

Lemma digit_not_space (c : ascii) : is_digit c = true → is_space c = false.
Proof.
  destruct c as [[] [] [] [] [] [] [] []]; intros H; vm_compute in H |- *;
    first [reflexivity | discriminate H].
Qed.

Lemma no_space_digits (s : string) : all_digits s → no_space s.
Proof.
  induction s as [| c s IH]; [done |]. intros [Hc Hs].
  split; [by apply digit_not_space | by apply IH].
Qed.

Lemma skip_trailing_space_eol (s : string) (terminated : bool) :
  no_space s → skip_trailing_space (s +:+ eol terminated) = s.
Proof.
  induction s as [| c s IH]; intros Hs.
  - by destruct terminated.
  - destruct Hs as [Hc Hs]. rewrite append_cons. cbn [skip_trailing_space].
    rewrite (IH Hs), Hc. by destruct s.
Qed.

(** The white space [int] skips leaves a text without white space as it
    is, up to a line terminator at its end. *)
Lemma skip_space_eol (s : string) (terminated : bool) :
  no_space s →
  skip_trailing_space (skip_leading_space (s +:+ eol terminated)) = s.
Proof.
  intros Hs. destruct s as [| c s]; [by destruct terminated |].
  rewrite append_cons. cbn [skip_leading_space].
  destruct Hs as [Hc Hs]. rewrite Hc, <- append_cons.
  apply skip_trailing_space_eol. by split.
Qed.

Lemma no_space_str (n : Z) : no_space (str n).
Proof.
  destruct (Z.lt_ge_cases n 0) as [H|H].
  - destruct (str_neg_digits n H) as (s & -> & Hs & _).
    split; [reflexivity | by apply no_space_digits].
  - apply no_space_digits. by apply str_nonneg_digits.
Qed.

Lemma int_digits_to_uint (p : positive) :
  int_digits 0 false (NilZero.string_of_uint (Pos.to_uint p)) = Some (Z.pos p).
Proof.
  pose proof (DecimalPos.Unsigned.to_uint_nonnil p) as Hn.
  pose proof (DecimalPos.Unsigned.of_to p) as Hp.
  assert (E : NilZero.string_of_uint (Pos.to_uint p)
              = NilEmpty.string_of_uint (Pos.to_uint p))
    by (by destruct (Pos.to_uint p)).
  rewrite E, int_digits_uint by (by right).
  rewrite uint_value_0. unfold Z.of_uint. by rewrite Hp.
Qed.

(** [int(str(n))] is [n], also when a line terminator follows. *)
Lemma int_str_eol (n : Z) (terminated : bool) : int (str n +:+ eol terminated) = Ok n.
Proof.
  unfold int. rewrite skip_space_eol by apply no_space_str.
  destruct n as [| p | p].
  - reflexivity.
  - unfold str. cbn [Z.to_int NilZero.string_of_int].
    pose proof (int_digits_to_uint p) as H.
    pose proof (DecimalPos.Unsigned.to_uint_nonnil p) as Hn.
    destruct (Pos.to_uint p); [done | ..]; cbn [NilZero.string_of_uint NilEmpty.string_of_uint] in *;
      by rewrite H.
  - unfold str. cbn [Z.to_int NilZero.string_of_int].
    by rewrite int_digits_to_uint.
Qed.

Lemma int_str (n : Z) : int (str n) = Ok n.
Proof. rewrite <- (append_nil_r (str n)). apply (int_str_eol n false). Qed.

(** *** Fields written as name=value *)

Lemma field_value_head (field_name : string) (c : ascii) (v : Z)
  (terminated : bool) (rest : list string) :
  field_value field_name
    ((field_name +:+ String c (str v +:+ eol terminated)) :: rest)
  = Ok v.
Proof.
  cbn [field_value]. rewrite startswith_append.
  change (field_name +:+ String c (str v +:+ eol terminated))
    with (field_name +:+ (String c "" +:+ (str v +:+ eol terminated))).
  rewrite <- append_assoc.
  replace (len field_name + 1) with (len (field_name +:+ String c "")).
  - rewrite slice_suffix. apply int_str_eol.
  - unfold len. rewrite strlen_append. cbn [strlen]. lia.
Qed.

(** X1: a field made of the requested name, any one character and the
    decimal text of an integer is read back as that integer, whatever
    follows it in the list and with or without a line terminator; the
    character after the name is passed over unchecked. *)
Theorem X1_field_value_round_trip (field_name : string) (c : ascii) (v : Z)
  (terminated : bool) (rest : list string) :
  field_value field_name
    ((field_name +:+ String c (str v +:+ eol terminated)) :: rest)
  = Ok v.
Proof. apply field_value_head. Qed.

(** *** The --aggregate argument *)

Lemma slice_init (s : string) (c : ascii) :
  slice (s +:+ String c "") (Some 0) (Some (-1)) = s.
Proof.
  unfold slice, clamp_index, len. rewrite strlen_append. cbn [strlen Z.ltb Z.compare].
  rewrite Z.min_l, Z.max_r by lia. cbn [Z.to_nat drop_chars].
  replace (Z.to_nat (-1 + Z.of_nat (strlen s + 1) - 0)) with (strlen s) by lia.
  apply take_chars_append.
Qed.

Lemma slice_last (s : string) (c : ascii) :
  slice (s +:+ String c "") (Some (-1)) None = String c "".
Proof.
  unfold slice, clamp_index, len. rewrite strlen_append. cbn [strlen Z.ltb Z.compare].
  rewrite Z.max_r by lia.
  replace (Z.to_nat (-1 + Z.of_nat (strlen s + 1))) with (strlen s) by lia.
  rewrite drop_chars_append.
  replace (Z.to_nat (Z.of_nat (strlen s + 1) - (-1 + Z.of_nat (strlen s + 1)))) with 1%nat
    by lia.
  reflexivity.
Qed.

(** X2: an --aggregate argument made of the decimal text of n and one
    letter gives n minutes, hours or days in milliseconds for m, h or
    d in either case, n of any sign, and stops the script for any other
    letter; without digits before the letter, or when empty, it is not
    rejected by the script but fails with ValueError. *)
Theorem X2_milliseconds_aggregation_parse :
  (∀ (n : Z) (c : ascii),
     milliseconds_aggregation (Some (str n +:+ String c ""))
     = if Ascii.eqb (upper_char c) "M" then Ok (Some (n * 60000))
       else if Ascii.eqb (upper_char c) "H" then Ok (Some (n * 3600000))
       else if Ascii.eqb (upper_char c) "D" then Ok (Some (n * 86400000))
       else Raise SystemExit)
  ∧ (∀ c : ascii, milliseconds_aggregation (Some (String c "")) = Raise ValueError)
  ∧ milliseconds_aggregation (Some "") = Raise ValueError.
Proof.
  split; [| split; [| reflexivity]].
  - intros n c. unfold milliseconds_aggregation.
    rewrite slice_init, slice_last, int_str, bind_Ok.
    cbn [upper String.eqb].
    destruct (Ascii.eqb (upper_char c) "M"); [reflexivity |].
    destruct (Ascii.eqb (upper_char c) "H"); [reflexivity |].
    destruct (Ascii.eqb (upper_char c) "D"); reflexivity.
  - intros c. unfold milliseconds_aggregation.
    pose proof (slice_init "" c) as H. rewrite append_nil_l in H.
    rewrite H. reflexivity.
Qed.








(** *** The effect of a line *)

Lemma read_observation_Ok (fields : list string) (o : observation) :
  read_observation fields = Ok o ↔ observes fields o.
Proof.
  unfold read_observation, observes. destruct o as [c m s e]. cbn [o_count o_max o_sum o_errcount].
  split.
  - intros H.
    apply bind_inv_Ok in H as (c' & Hc & H). apply bind_inv_Ok in H as (m' & Hm & H).
    apply bind_inv_Ok in H as (s' & Hs & H). apply bind_inv_Ok in H as (e' & He & H).
    by inversion H; subst.
  - intros (-> & -> & -> & ->). reflexivity.
Qed.

Lemma record_metrics_line_effect utcoffset (metrics : gmap string MetricsTuple)
  ms name fields :
  record_metrics_line utcoffset metrics ms name fields
  = match read_observation fields with
    | Ok o => apply_effect utcoffset (Merges ms name o) metrics
    | Raise e => Raise e
    end.
Proof.
  unfold record_metrics_line, read_observation, apply_effect.
  destruct (field_value "count" fields) as [c|]; [| reflexivity].
  destruct (field_value "max" fields) as [m|]; [| reflexivity].
  destruct (field_value "sum" fields) as [s|]; [| reflexivity].
  destruct (field_value "err.count" fields) as [e|]; [| reflexivity].
  rewrite !bind_Ok.
  destruct (Datetime.fromtimestamp utcoffset ms) as [[d t]|]; [| reflexivity].
  rewrite !bind_Ok. unfold mret, result_ret.
  destruct (metrics !! metrics_key ms name); reflexivity.
Qed.

(** A line acts on the dictionary through its effect alone. *)
Lemma read_line_effect utcoffset file_date aggregation_func regex_func
  (metrics : gmap string MetricsTuple) line :
  read_line utcoffset file_date aggregation_func regex_func metrics line
  = apply_effect utcoffset (line_effect file_date aggregation_func regex_func line) metrics.
Proof.
  unfold read_line, line_effect.
  destruct (split line ", ") as [| raw_time [| type [| name fields]]]; try reflexivity.
  cbn [getitem lookup list_lookup]. rewrite !bind_Ok.
  change (drop 3 (raw_time :: type :: name :: fields)) with fields.
  destruct (Datetime.strptime_HMS raw_time) as [line_time|]; [| reflexivity].
  rewrite bind_Ok.
  destruct (aggregation_func file_date line_time) as [ms|]; [| reflexivity].
  rewrite bind_Ok.
  destruct (String.eqb type TIMING_RECORD); [| reflexivity].
  destruct (passes_filter regex_func name); [| reflexivity].
  cbn [andb]. rewrite record_metrics_line_effect.
  by destruct (read_observation fields).
Qed.
Lemma merged_comm d t name old o1 o2 :
  merged d t name (merged d t name old o1) o2
  = merged d t name (merged d t name old o2) o1.
Proof.
  unfold merged. cbn [MetricsTuple.count MetricsTuple.sum MetricsTuple.max
    MetricsTuple.errcount].
  replace (MetricsTuple.count old + o_count o1 + o_count o2)
    with (MetricsTuple.count old + o_count o2 + o_count o1) by lia.
  replace (MetricsTuple.sum old + o_sum o1 + o_sum o2)
    with (MetricsTuple.sum old + o_sum o2 + o_sum o1) by lia.
  f_equal; lia.
Qed.

(** Two effects that both go through can be applied in either order. *)
Lemma apply_effect_comm utcoffset (a b : effect) (m m1 m2 : gmap string MetricsTuple) :
  apply_effect utcoffset a m = Ok m1 →
  apply_effect utcoffset b m1 = Ok m2 →
  ∃ m1', apply_effect utcoffset b m = Ok m1' ∧ apply_effect utcoffset a m1' = Ok m2.
Proof.
  intros Ha Hb.
  destruct a as [e1 | | ms1 name1 o1]; [discriminate Ha | |].
  { inversion Ha; subst. exists m2. by split. }
  destruct b as [e2 | | ms2 name2 o2]; [discriminate Hb | |].
  { inversion Hb; subst. exists m. by split. }
  cbn [apply_effect] in *.
  destruct (Datetime.fromtimestamp utcoffset ms1) as [[d1 t1]|] eqn:E1; [| discriminate Ha].
  destruct (Datetime.fromtimestamp utcoffset ms2) as [[d2 t2]|] eqn:E2; [| discriminate Hb].
  rewrite bind_Ok in *. inversion Ha; subst m1. inversion Hb; subst m2. clear Ha Hb.
  eexists. split; [reflexivity |]. rewrite bind_Ok. cbv beta iota. f_equal.
  destruct (decide (metrics_key ms1 name1 = metrics_key ms2 name2)) as [Hk | Hk].
  - destruct (metrics_key_inj _ _ _ _ Hk) as [-> ->].
    rewrite E1 in E2. inversion E2; subst d2 t2.
    rewrite !lookup_insert_eq, !insert_insert_eq. cbn [default]. unfold id.
    f_equal. apply merged_comm.
  - rewrite (lookup_insert_ne _ (metrics_key ms2 name2) (metrics_key ms1 name1)) by congruence.
    rewrite (lookup_insert_ne _ (metrics_key ms1 name1) (metrics_key ms2 name2)) by congruence.
    by apply insert_insert_ne.
Qed.

(** As a mapping the dictionary a file leaves does not depend on the
    order of its lines: when the lines are read through in one order,
    they are read through in any other order, with the same keys and
    the same tuples under them. *)
Lemma read_lines_Permutation utcoffset file_date aggregation_func regex_func
  (file file' : list string) :
  file ≡ₚ file' →
  ∀ metrics metrics' : gmap string MetricsTuple,
    read_lines utcoffset file_date aggregation_func regex_func metrics file = Ok metrics' →
    read_lines utcoffset file_date aggregation_func regex_func metrics file' = Ok metrics'.
Proof.
  induction 1 as [| line file file' _ IH | line1 line2 file | file file' file'' _ IH1 _ IH2];
    intros metrics metrics' H.
  - exact H.
  - cbn [read_lines] in *. apply bind_inv_Ok in H as (m1 & H1 & H).
    rewrite H1, bind_Ok. by apply IH.
  - cbn [read_lines] in *.
    apply bind_inv_Ok in H as (m1 & H1 & H). apply bind_inv_Ok in H as (m2 & H2 & H).
    rewrite read_line_effect in H1, H2.
    destruct (apply_effect_comm _ _ _ _ _ _ H1 H2) as (m1' & H1' & H2').
    rewrite read_line_effect, H1', bind_Ok, read_line_effect, H2', bind_Ok. exact H.
  - by apply IH2, IH1.
Qed.

(** *** Totals over the dictionary *)

Lemma grand_total_insert_None f (m : gmap string MetricsTuple) k v :
  m !! k = None → grand_total f (<[k := v]> m) = f v + grand_total f m.
Proof.
  intros H. unfold grand_total.
  rewrite (Zsum_Permutation _ ((λ kv, f kv.2) <$> (k, v) :: map_to_list m)).
  - reflexivity.
  - apply fmap_Permutation. by apply map_to_list_insert.
Qed.

Lemma grand_total_insert f (m : gmap string MetricsTuple) k v :
  f zero_tuple = 0 →
  grand_total f (<[k := v]> m)
  = grand_total f m - f (default zero_tuple (m !! k)) + f v.
Proof.
  intros H0. destruct (m !! k) as [old|] eqn:E; cbn [default]; unfold id.
  - rewrite <- (insert_delete_eq m k v).
    rewrite <- (insert_delete_id m k old E) at 2.
    rewrite !grand_total_insert_None by apply lookup_delete_eq. lia.
  - rewrite grand_total_insert_None by exact E. rewrite H0. lia.
Qed.

Lemma apply_effect_grand_total utcoffset f g eff (m m' : gmap string MetricsTuple) :
  f zero_tuple = 0 →
  (∀ d t name old o, f (merged d t name old o) = f old + g o) →
  apply_effect utcoffset eff m = Ok m' →
  grand_total f m' = grand_total f m + contribution g eff.
Proof.
  intros H0 Hf H. destruct eff as [e | | ms name o]; cbn [apply_effect contribution] in *.
  - discriminate H.
  - inversion H; subst. lia.
  - apply bind_inv_Ok in H as ([d t] & _ & H). inversion H; subst m'.
    rewrite grand_total_insert, Hf by exact H0. lia.
Qed.

Lemma read_lines_grand_total utcoffset file_date aggregation_func regex_func f g file :
  f zero_tuple = 0 →
  (∀ d t name old o, f (merged d t name old o) = f old + g o) →
  ∀ metrics metrics' : gmap string MetricsTuple,
    read_lines utcoffset file_date aggregation_func regex_func metrics file = Ok metrics' →
    grand_total f metrics'
    = grand_total f metrics
      + Zsum ((λ line, contribution g
                 (line_effect file_date aggregation_func regex_func line)) <$> file).
Proof.
  intros H0 Hf. induction file as [| line rest IH]; intros metrics metrics' H.
  - inversion H; subst. cbn. lia.
  - cbn [read_lines] in H. apply bind_inv_Ok in H as (m1 & H1 & H).
    rewrite read_line_effect in H1.
    rewrite (IH _ _ H), (apply_effect_grand_total _ f g _ _ _ H0 Hf H1).
    cbn [fmap list_fmap]. unfold Zsum. cbn [foldr]. lia.
Qed.

(** X5: reading a file raises the sum of the counts stored in the
    dictionary by exactly the counts of the timing records that passed
    the filter, and likewise for max, sum and errcount: no record is
    lost or counted twice, and no other line contributes. *)
Theorem X5_totals_conserved utcoffset file_date aggregation_func regex_func
  (file : list string) (metrics metrics' : gmap string MetricsTuple) :
  read_lines utcoffset file_date aggregation_func regex_func metrics file = Ok metrics' →
  let accepted g :=
    Zsum ((λ line, contribution g
             (line_effect file_date aggregation_func regex_func line)) <$> file) in
  grand_total MetricsTuple.count metrics'
  = grand_total MetricsTuple.count metrics + accepted o_count
  ∧ grand_total MetricsTuple.max metrics'
    = grand_total MetricsTuple.max metrics + accepted o_max
  ∧ grand_total MetricsTuple.sum metrics'
    = grand_total MetricsTuple.sum metrics + accepted o_sum
  ∧ grand_total MetricsTuple.errcount metrics'
    = grand_total MetricsTuple.errcount metrics + accepted o_errcount.
Proof.
  intros H accepted. unfold accepted.
  repeat split;
    by apply (read_lines_grand_total utcoffset file_date aggregation_func regex_func _ _
                file eq_refl (λ _ _ _ _ _, eq_refl) metrics metrics' H).
Qed.

Lemma X5_totals_conserved_witness :
  let file :=
    ["10:00:05, tm, svc.A, count=2, max=50, sum=100, err.count=0";
     "10:00:07, other, svc.A, count=40";
     "10:00:20, tm, svc.B, count=3, max=30, sum=150, err.count=1";
     "10:01:00, tm, svc.A, count=1, max=9, sum=9"] in
  ∃ metrics,
    read_lines 0 (Datetime.Date 2024 1 1)
      (calculate_aggregation_period_start_ms 0 (Some 3600000)) None ∅ file = Ok metrics
    ∧ grand_total MetricsTuple.count metrics = 6.
Proof.
  intros file.
  assert (E : ∃ metrics,
            read_lines 0 (Datetime.Date 2024 1 1)
              (calculate_aggregation_period_start_ms 0 (Some 3600000)) None ∅ file
            = Ok metrics)
    by (vm_compute; eexists; reflexivity).
  destruct E as [metrics E]. exists metrics. split; [exact E |].
  exact (proj1 (X5_totals_conserved 0 _ _ None file ∅ metrics E)).
Defined.

(** *** What a run stores *)

Lemma calculate_aggregation_period_start_ms_divide utcoffset w d t ms :
  calculate_aggregation_period_start_ms utcoffset (Some w) d t = Ok ms → (w | ms).
Proof.
  unfold calculate_aggregation_period_start_ms, floordiv. intros H.
  apply bind_inv_Ok in H as (ts & _ & H).
  destruct (w =? 0); [discriminate H |]. rewrite bind_Ok in H.
  inversion H. by exists (ts / w).
Qed.







(** *** Lines that are not records *)

Lemma split_go_no_comma (s cur : string) :
  no_comma s → split_go ", " O cur s = [cur +:+ s].
Proof.
  revert cur. induction s as [| c s IH]; intros cur Hs.
  - by rewrite append_nil_r.
  - destruct Hs as [Hc Hs]. cbn [split_go startswith].
    destruct (Ascii.eqb_spec "," c) as [<- | _]; [done |].
    rewrite (IH _ Hs), append_assoc. reflexivity.
Qed.

(** X7: a line without a comma (an empty line, a blank line, free
    text) stops the run with IndexError, whatever the dictionary, the
    window and the filter. *)
Theorem X7_line_without_comma utcoffset file_date aggregation_func regex_func
  (metrics : gmap string MetricsTuple) (line : string) :
  no_comma line →
  read_line utcoffset file_date aggregation_func regex_func metrics line
  = Raise IndexError.
Proof.
  intros H. unfold read_line, split. by rewrite (split_go_no_comma line "" H).
Qed.

Lemma X7_line_without_comma_witness :
  read_line 0 (Datetime.Date 2024 1 1)
    (calculate_aggregation_period_start_ms 0 None) None ∅ (eol true)
  = Raise IndexError.
Proof.
  apply X7_line_without_comma. split; [discriminate | exact I].
Defined.

(** *** The layout of a printed line *)

Lemma strlen_drop_chars (n : nat) (s : string) :
  strlen (drop_chars n s) = (strlen s - n)%nat.
Proof.
  revert n. induction s as [| c s IH]; intros [| n]; cbn [drop_chars strlen]; try lia.
  rewrite IH. lia.
Qed.

Lemma strlen_take_chars (n : nat) (s : string) :
  strlen (take_chars n s) = Nat.min n (strlen s).
Proof.
  revert n. induction s as [| c s IH]; intros [| n]; cbn [take_chars strlen]; try lia.
  rewrite IH. lia.
Qed.

Lemma take_drop_chars (n : nat) (s : string) :
  take_chars n s +:+ drop_chars n s = s.
Proof.
  revert n. induction s as [| c s IH]; intros [| n]; cbn [take_chars drop_chars];
    try reflexivity.
  by rewrite append_cons, IH.
Qed.

Lemma strlen_spaces (n : nat) : strlen (spaces n) = n.
Proof. induction n as [| n IH]; cbn [spaces strlen]; [reflexivity | by rewrite IH]. Qed.

Lemma strlen_ljust (w : nat) (s : string) : strlen (ljust w s) = Nat.max w (strlen s).
Proof. unfold ljust. rewrite strlen_append, strlen_spaces. lia. Qed.

Lemma strlen_rjust (w : nat) (s : string) : strlen (rjust w s) = Nat.max w (strlen s).
Proof. unfold rjust. rewrite strlen_append, strlen_spaces. lia. Qed.

(** [name[-67:]] for a name of 67 characters or more: its last 67
    characters. *)
Lemma slice_last_67 (name : string) :
  (67 ≤ strlen name)%nat →
  slice name (Some (- name_field_width + 3)) None = drop_chars (strlen name - 67) name.
Proof.
  intros H. unfold slice, clamp_index, len, name_field_width.
  cbn [Z.ltb Z.compare Z.opp Z.add Z.pos_sub Pos.pred_double]. 
  change (- (70) + 3) with (-67).
  destruct (Z.ltb_spec (-67) 0) as [_ | H0]; [| lia].
  rewrite Z.max_r by lia.
  replace (Z.to_nat (-67 + Z.of_nat (strlen name))) with (strlen name - 67)%nat by lia.
  apply take_chars_all. rewrite strlen_drop_chars. lia.
Qed.

(** X8: in every printed line the name column is exactly 70 characters
    wide.  A name shorter than 70 is printed whole and padded; a name
    of 70 characters or more, one that would just fit included, is
    printed as three dots and its last 67 characters.  A number column
    is padded on the left to its width (4, 7, 7, 7 and 3) and never
    cut: a number wider than its column widens the line.  So a line is
    as long as its two labels and 138 characters more (70 of the name,
    28 of the five number columns, 40 of fixed text), and longer by
    what a number exceeds its column by. *)
Theorem X8_line_layout :
  (∀ name, strlen (ljust 70 (abbreviated_name name)) = 70%nat)
  ∧ (∀ name, (strlen name < 70)%nat → abbreviated_name name = name)
  ∧ (∀ name, (70 ≤ strlen name)%nat →
       ∃ cut kept, name = cut +:+ kept ∧ strlen kept = 67%nat
                   ∧ abbreviated_name name = "..." +:+ kept)
  ∧ (∀ w n, ∃ pad, fmt_d w n = spaces pad +:+ str n
                   ∧ strlen (fmt_d w n) = Nat.max w (strlen (str n)))
  ∧ (∀ date time name count sum max avg errcount,
       strlen (format_row date time (abbreviated_name name) count sum max avg errcount)
       = (strlen date + strlen time + 70
          + Nat.max 4 (strlen (str count)) + Nat.max 7 (strlen (str sum))
          + Nat.max 7 (strlen (str max)) + Nat.max 7 (strlen (str avg))
          + Nat.max 3 (strlen (str errcount)) + 40)%nat).
Proof.
  assert (Hshort : ∀ name, (strlen name < 70)%nat → abbreviated_name name = name).
  { intros name H. unfold abbreviated_name, len, name_field_width.
    destruct (Z.ltb_spec (Z.of_nat (strlen name)) 70); [reflexivity | lia]. }
  assert (Hlong : ∀ name, (70 ≤ strlen name)%nat →
            abbreviated_name name = "..." +:+ drop_chars (strlen name - 67) name).
  { intros name H. unfold abbreviated_name, len.
    destruct (Z.ltb_spec (Z.of_nat (strlen name)) name_field_width) as [H' | _].
    - unfold name_field_width in H'. lia.
    - rewrite slice_last_67 by lia. reflexivity. }
  assert (Hcol : ∀ name, strlen (ljust 70 (abbreviated_name name)) = 70%nat).
  { intros name. rewrite strlen_ljust.
    destruct (Nat.lt_ge_cases (strlen name) 70) as [H | H].
    - rewrite Hshort by exact H. lia.
    - rewrite Hlong by exact H. rewrite strlen_append, strlen_drop_chars.
      cbn [strlen]. lia. }
  split; [exact Hcol |]. split; [exact Hshort |]. split; [| split].
  - intros name H. exists (take_chars (strlen name - 67) name),
      (drop_chars (strlen name - 67) name).
    split; [by rewrite take_drop_chars |]. split.
    + rewrite strlen_drop_chars. lia.
    + by apply Hlong.
  - intros w n. exists (w - strlen (str n))%nat. split; [reflexivity |].
    apply strlen_rjust.
  - intros date time name count sum max avg errcount. unfold format_row, fmt_d.
    rewrite !strlen_append, Hcol, !strlen_rjust. cbn [strlen]. lia.
Qed.

(** *** The filter and letter case *)

Lemma lower_upper_char (a : ascii) : lower_char (upper_char a) = lower_char a.
Proof. destruct a as [[] [] [] [] [] [] [] []]; reflexivity. Qed.

Lemma upper_char_newline (a : ascii) :
  Ascii.eqb (upper_char a) Re.newline = Ascii.eqb a Re.newline.
Proof. destruct a as [[] [] [] [] [] [] [] []]; reflexivity. Qed.

Lemma match_here_upper (p : Re.pattern) :
  ∀ at_start s, Re.match_here p at_start (upper s) = Re.match_here p at_start s.
Proof.
  induction p as [| a p IH]; intros at_start s; [reflexivity |].
  destruct a as [c | | |]; cbn [Re.match_here].
  - destruct s as [| x r]; [reflexivity |]. cbn [upper].
    by rewrite lower_upper_char, IH.
  - destruct s as [| x r]; [reflexivity |]. cbn [upper].
    by rewrite upper_char_newline, IH.
  - by rewrite IH.
  - destruct s as [| x [| y r]]; cbn [upper].
    + apply (IH at_start "").
    + rewrite upper_char_newline. f_equal. apply (IH at_start (String x "")).
    + reflexivity.
Qed.

Lemma search_go_upper (p : Re.pattern) :
  ∀ at_start s, Re.search_go p at_start (upper s) = Re.search_go p at_start s.
Proof.
  intros at_start s. revert at_start.
  induction s as [| x r IH]; intros at_start; cbn [Re.search_go upper].
  - reflexivity.
  - rewrite (IH false). f_equal. apply (match_here_upper p at_start (String x r)).
Qed.

Lemma parse_cons (c : ascii) (g : string) :
  Re.parse (String c g)
  = if Re.is_meta c then None else cons (atom_of c) <$> Re.parse g.
Proof. reflexivity. Qed.

(** Upper case changes a character of a pattern only when it is a
    letter, which stands for itself. *)
Lemma atom_of_upper (c : ascii) :
  upper_char c = c
  ∨ (Re.is_meta c = false ∧ Re.is_meta (upper_char c) = false
     ∧ atom_of c = Re.Lit c ∧ atom_of (upper_char c) = Re.Lit (upper_char c)).
Proof.
  destruct c as [[] [] [] [] [] [] [] []];
    first [left; reflexivity | right; repeat split; reflexivity].
Qed.

Lemma match_here_cons (a : Re.atom) (q q' : Re.pattern) :
  (∀ at_start s, Re.match_here q' at_start s = Re.match_here q at_start s) →
  ∀ at_start s, Re.match_here (a :: q') at_start s = Re.match_here (a :: q) at_start s.
Proof.
  intros H at_start s. destruct a; cbn [Re.match_here].
  - destruct s; by rewrite ?H.
  - destruct s; by rewrite ?H.
  - by rewrite H.
  - destruct s as [| x [| y r]]; by rewrite ?H.
Qed.

Lemma parse_upper (g : string) :
  match Re.parse g, Re.parse (upper g) with
  | Some p, Some p' =>
      ∀ at_start s, Re.match_here p' at_start s = Re.match_here p at_start s
  | None, None => True
  | _, _ => False
  end.
Proof.
  induction g as [| c g IH]; [done |].
  cbn [upper]. rewrite !parse_cons.
  destruct (atom_of_upper c) as [-> | (Hm & Hm' & Ha & Ha')].
  - destruct (Re.is_meta c); [done |].
    destruct (Re.parse g) as [q |], (Re.parse (upper g)) as [q' |]; try done.
    cbn [fmap option_fmap option_map]. by apply match_here_cons.
  - rewrite Hm, Hm', Ha, Ha'.
    destruct (Re.parse g) as [q |], (Re.parse (upper g)) as [q' |]; try done.
    cbn [fmap option_fmap option_map]. intros at_start s. cbn [Re.match_here].
    destruct s as [| x r]; [reflexivity |]. by rewrite lower_upper_char, IH.
Qed.

(** X9: on ASCII text the filter ignores letter case, in the name and
    in the pattern: for a pattern and names that [isascii] accepts,
    putting either in upper case changes neither whether the pattern
    is accepted nor which names pass.  (Outside ASCII, Python's [upper]
    can change the length of a text and the property is not claimed.) *)
Theorem X9_filter_ignores_case (grep_regex : string) :
  isascii grep_regex = true →
  match regex_func_of (Some grep_regex), regex_func_of (Some (upper grep_regex)) with
  | Ok regex_func, Ok regex_func' =>
      ∀ name,
        isascii name = true →
        passes_filter regex_func (upper name) = passes_filter regex_func name
        ∧ passes_filter regex_func' name = passes_filter regex_func name
  | Raise e, Raise e' => e = e'
  | _, _ => False
  end.
Proof.
  intros _.
  unfold regex_func_of, Re.compile. pose proof (parse_upper grep_regex) as H.
  destruct (Re.parse grep_regex) as [p |], (Re.parse (upper grep_regex)) as [p' |];
    try done.
  rewrite !bind_Ok. unfold mret, result_ret.
  intros name _. cbn [passes_filter]. unfold filter_by_regex, Re.search. split.
  - apply search_go_upper.
  - generalize true. induction name as [| x r IH]; intros at_start; cbn [Re.search_go].
    + by rewrite H.
    + by rewrite H, IH.
Qed.

Lemma X9_filter_ignores_case_witness :
  ∃ regex_func regex_func',
    regex_func_of (Some "^svc.a$") = Ok regex_func
    ∧ regex_func_of (Some "^SVC.A$") = Ok regex_func'
    ∧ passes_filter regex_func "SVC-A" = passes_filter regex_func "Svc-a"
    ∧ passes_filter regex_func' "Svc-a" = passes_filter regex_func "Svc-a"
    ∧ passes_filter regex_func "Svc-a" = true.
Proof.
  pose proof (X9_filter_ignores_case "^svc.a$" eq_refl) as H.
  destruct (regex_func_of (Some "^svc.a$")) as [regex_func |] eqn:E;
    [| discriminate E].
  change (upper "^svc.a$") with "^SVC.A$" in H.
  destruct (regex_func_of (Some "^SVC.A$")) as [regex_func' |] eqn:E';
    [| discriminate E'].
  exists regex_func, regex_func'.
  destruct (H "Svc-a" eq_refl) as [H1 H2].
  split; [reflexivity |]. split; [reflexivity |].
  split; [exact H1 |]. split; [exact H2 |].
  injection E as <-. reflexivity.
Defined.

(** *** Windows of whole days *)

(** X10: a window of whole days is cut at midnight UTC, not at local
    midnight: the time of day at which such a bucket starts on the
    local clock is the zone's offset from UTC (modulo 24 hours), so in
    a zone 13 hours ahead the daily bucket is labelled 13:00. *)
Theorem X10_day_window_at_utc_midnight utcoffset (d d' : Datetime.date)
  (t t' : Datetime.time) (k b : Z) :
  k ≠ 0 →
  calculate_aggregation_period_start_ms utcoffset (Some (k * MILLISECONDS_TO_DAY)) d t
  = Ok b →
  Datetime.fromtimestamp utcoffset b = Ok (d', t') →
  let s := utcoffset mod 86400 in
  t' = Datetime.Time (s / 3600) (s mod 3600 / 60) (s mod 60).
Proof.
  intros Hk Hb Hl s.
  apply calculate_aggregation_period_start_ms_divide in Hb as [q ->].
  unfold Datetime.fromtimestamp in Hl.
  destruct (Datetime.in_years _ && Datetime.in_years _); [| discriminate Hl].
  injection Hl as _ <-.
  assert (E : (q * (k * MILLISECONDS_TO_DAY) / 1000 + utcoffset) mod 86400 = s).
  { unfold s, MILLISECONDS_TO_DAY.
    replace (q * (k * (24 * 60 * 60 * 1000))) with (q * k * 86400 * 1000) by lia.
    rewrite Z.div_mul by discriminate.
    rewrite Z.add_comm, Z.mod_add by discriminate. reflexivity. }
  rewrite E. reflexivity.
Qed.

Lemma X10_day_window_at_utc_midnight_witness :
  calculate_aggregation_period_start_ms 46800 (Some (1 * MILLISECONDS_TO_DAY))
    (Datetime.Date 2024 1 1) (Datetime.Time 10 0 5)
  = Ok 1703980800000
  ∧ Datetime.fromtimestamp 46800 1703980800000
    = Ok (Datetime.Date 2023 12 31, Datetime.Time 13 0 0)
  ∧ Datetime.Time 13 0 0
    = Datetime.Time (46800 mod 86400 / 3600) (46800 mod 86400 mod 3600 / 60)
        (46800 mod 86400 mod 60).
Proof.
  assert (H1 : calculate_aggregation_period_start_ms 46800 (Some (1 * MILLISECONDS_TO_DAY))
                 (Datetime.Date 2024 1 1) (Datetime.Time 10 0 5)
               = Ok 1703980800000) by reflexivity.
  assert (H2 : Datetime.fromtimestamp 46800 1703980800000
               = Ok (Datetime.Date 2023 12 31, Datetime.Time 13 0 0)) by reflexivity.
  split; [exact H1 |]. split; [exact H2 |].
  exact (X10_day_window_at_utc_midnight 46800 _ _ _ _ 1 _ ltac:(discriminate) H1 H2).
Defined.


(** *** The date in a file name *)

Lemma rfind_append (c : ascii) (a ext : string) :
  rfind c ext = None → rfind c (a +:+ String c ext) = Some (strlen a).
Proof.
  intros H. induction a as [| x a IH].
  - rewrite append_nil_l. cbn [rfind strlen]. by rewrite H, Ascii.eqb_refl.
  - rewrite append_cons. cbn [rfind strlen]. by rewrite IH.
Qed.

Lemma rfind_no_dot (s : string) : no_dot s → rfind "." s = None.
Proof.
  induction s as [| c s IH]; [done |]. intros [Hc Hs]. cbn [rfind].
  rewrite (IH Hs). by destruct (Ascii.eqb_spec c ".").
Qed.

(** [(a + t + rest)[len(a + t) - 8 : len(a + t)]] is [t] when [t] has
    eight characters. *)
Lemma slice_eight (a t rest : string) :
  strlen t = 8%nat →
  slice (a +:+ t +:+ rest)
    (Some (Z.of_nat (strlen (a +:+ t)) - 8)) (Some (Z.of_nat (strlen (a +:+ t))))
  = t.
Proof.
  intros Ht. unfold slice, clamp_index, len. rewrite !strlen_append, Ht.
  destruct (Z.ltb_spec (Z.of_nat (strlen a + 8) - 8) 0) as [H | _]; [lia |].
  destruct (Z.ltb_spec (Z.of_nat (strlen a + 8)) 0) as [H | _]; [lia |].
  rewrite !Z.min_l by lia.
  replace (Z.to_nat (Z.of_nat (strlen a + 8) - 8)) with (strlen a) by lia.
  replace (Z.to_nat (Z.of_nat (strlen a + 8) - (Z.of_nat (strlen a + 8) - 8)))
    with (strlen t) by lia.
  rewrite drop_chars_append. apply take_chars_append.
Qed.

Lemma year_text (y : Z) : 1 ≤ y ≤ 9999 → year_text_ok y = true.
Proof.
  intros Hy.
  assert (H : forallb year_text_ok (seqZ 1 9999) = true) by (vm_compute; reflexivity).
  rewrite forallb_forall in H. apply H. apply list_elem_of_In, elem_of_seqZ. lia.
Qed.

Lemma dir_Y_text (y : Z) (rest : string) :
  1 ≤ y ≤ 9999 →
  strlen (zfill 4 y) = 4%nat ∧ Datetime.dir_Y (zfill 4 y +:+ rest) = [(y, rest)].
Proof.
  intros Hy. pose proof (year_text y Hy) as H. unfold year_text_ok in H.
  destruct (zfill 4 y) as [| a [| b [| c [| e [| ? ?]]]]]; try discriminate H.
  split; [reflexivity |].
  apply andb_true_iff in H as [H Hv]. apply Z.eqb_eq in Hv.
  rewrite !append_cons, append_nil_l. cbn [Datetime.dir_Y]. by rewrite H, Hv.
Qed.

Lemma dir_m_text (m : Z) (rest : string) :
  1 ≤ m ≤ 12 →
  strlen (zfill 2 m) = 2%nat
  ∧ ∃ others, Datetime.dir_m (zfill 2 m +:+ rest) = (m, rest) :: others.
Proof.
  intros Hm. assert (H : m = 1 ∨ m = 2 ∨ m = 3 ∨ m = 4 ∨ m = 5 ∨ m = 6 ∨ m = 7 ∨ m = 8 ∨ m = 9 ∨ m = 10 ∨ m = 11 ∨ m = 12) by lia.
  repeat (destruct H as [-> | H]); try subst m;
    (split; [reflexivity | eexists; reflexivity]).
Qed.

Lemma dir_d_text (d : Z) (rest : string) :
  1 ≤ d ≤ 31 →
  strlen (zfill 2 d) = 2%nat
  ∧ ∃ others, Datetime.dir_d (zfill 2 d +:+ rest) = (d, rest) :: others.
Proof.
  intros Hd. assert (H : d = 1 ∨ d = 2 ∨ d = 3 ∨ d = 4 ∨ d = 5 ∨ d = 6 ∨ d = 7 ∨ d = 8 ∨ d = 9 ∨ d = 10 ∨ d = 11 ∨ d = 12 ∨ d = 13 ∨ d = 14 ∨ d = 15 ∨ d = 16 ∨ d = 17 ∨ d = 18 ∨ d = 19 ∨ d = 20 ∨ d = 21 ∨ d = 22 ∨ d = 23 ∨ d = 24 ∨ d = 25 ∨ d = 26 ∨ d = 27 ∨ d = 28 ∨ d = 29 ∨ d = 30 ∨ d = 31) by lia.
  repeat (destruct H as [-> | H]); try subst d;
    (split; [reflexivity | eexists; reflexivity]).
Qed.

Lemma days_in_month_le (y m : Z) : Datetime.days_in_month y m ≤ 31.
Proof.
  unfold Datetime.days_in_month.
  repeat match goal with |- context [if ?b then _ else _] => destruct b end; lia.
Qed.

Lemma valid_date_bounds (d : Datetime.date) :
  Datetime.valid_date d = true →
  1 ≤ Datetime.year d ≤ 9999 ∧ 1 ≤ Datetime.month d ≤ 12 ∧ 1 ≤ Datetime.day d ≤ 31.
Proof.
  unfold Datetime.valid_date. rewrite !andb_true_iff, !Z.leb_le.
  pose proof (days_in_month_le (Datetime.year d) (Datetime.month d)). lia.
Qed.

(** The text YYYYMMDD of a valid date is read back as that date. *)
Lemma strptime_Ymd_text (d : Datetime.date) :
  Datetime.valid_date d = true →
  strlen (Ymd_text d) = 8%nat ∧ Datetime.strptime_Ymd (Ymd_text d) = Ok d.
Proof.
  intros Hv. destruct (valid_date_bounds d Hv) as (Hy & Hm & Hd).
  destruct d as [y m dd]. cbn [Datetime.year Datetime.month Datetime.day] in *.
  unfold Ymd_text. cbn [Datetime.year Datetime.month Datetime.day].
  destruct (dir_Y_text y (zfill 2 m +:+ zfill 2 dd) Hy) as [Ly Ey].
  destruct (dir_m_text m (zfill 2 dd) Hm) as [Lm [om Em]].
  destruct (dir_d_text dd "" Hd) as [Ld [od Ed]]. rewrite append_nil_r in Ed.
  split; [rewrite !strlen_append; lia |].
  unfold Datetime.strptime_Ymd. rewrite Ey. cbn [mbind list_bind app].
  rewrite Em. cbn [mbind list_bind app]. rewrite Ed. cbn [mbind list_bind app].
  cbn [Datetime.first_match]. by rewrite Hv.
Qed.

(** X11: a file name made of any prefix, the date of the file written
    YYYYMMDD, a dot and an extension without a dot gives back that
    date, for every valid date; dots and other characters in the prefix
    do no harm. *)
Theorem X11_parse_filename_date_round_trip (prefix ext : string) (d : Datetime.date) :
  Datetime.valid_date d = true →
  no_dot ext →
  parse_filename_date (prefix +:+ Ymd_text d +:+ String "." ext) = Ok d.
Proof.
  intros Hv Hext. destruct (strptime_Ymd_text d Hv) as [Hlen Hparse].
  unfold parse_filename_date, rindex.
  rewrite <- append_assoc, (rfind_append "." _ ext (rfind_no_dot ext Hext)), bind_Ok.
  rewrite append_assoc, (slice_eight prefix (Ymd_text d) (String "." ext) Hlen).
  exact Hparse.
Qed.

Lemma X11_parse_filename_date_round_trip_witness :
  parse_filename_date "logs.d/app-v1.2-20240229.txt" = Ok (Datetime.Date 2024 2 29).
Proof.
  apply (X11_parse_filename_date_round_trip "logs.d/app-v1.2-" "txt"
           (Datetime.Date 2024 2 29)).
  - reflexivity.
  - repeat split; discriminate.
Defined.

(** *** The --sort argument *)

Lemma split_go_nonempty (sep : string) (skip : nat) (cur s : string) :
  split_go sep skip cur s ≠ [].
Proof.
  revert skip cur. induction s as [| c s IH]; intros skip cur; cbn [split_go]; [done |].
  destruct skip; [| apply IH]. destruct (startswith _ sep); [done | apply IH].
Qed.

Lemma parse_sort_fields_spec (pieces acc : list string) :
  parse_sort_fields pieces acc
  = if forallb (λ field, bool_decide (strip field ∈ metrics_field_names)) pieces
    then Ok (acc ++ (strip <$> pieces))
    else Raise SystemExit.
Proof.
  revert acc. induction pieces as [| field rest IH]; intros acc; cbn [parse_sort_fields forallb].
  - by rewrite app_nil_r.
  - destruct (bool_decide (strip field ∈ metrics_field_names)); [| reflexivity].
    rewrite IH. cbn [andb fmap list_fmap]. by rewrite <- app_assoc.
Qed.

Lemma forallb_fmap {A B} (f : A → B) (p : B → bool) (l : list A) :
  forallb p (f <$> l) = forallb (λ x, p (f x)) l.
Proof. induction l as [| x l IH]; [reflexivity |]. cbn. by rewrite IH. Qed.

(** X12: the --sort argument is accepted exactly when every piece
    between commas, stripped of the white space around it, is one of
    the eight field names; the sort fields are then those stripped
    pieces, in order and with repetitions, and there is at least one.
    Otherwise (an unknown name, an empty piece, an empty argument) the
    script stops. *)
Theorem X12_sort_fields_parse (sort : string) :
  let pieces := strip <$> split sort "," in
  sort_fields (Some sort)
  = (if forallb (λ field, bool_decide (field ∈ metrics_field_names)) pieces
     then Ok pieces else Raise SystemExit)
  ∧ pieces ≠ []
  ∧ sort_fields (Some "") = Raise SystemExit
  ∧ sort_fields (Some " name , date") = Ok ["name"; "date"]
  ∧ sort_fields (Some "date,time,name") = Ok ["date"; "time"; "name"].
Proof.
  intros pieces. split; [| split; [| repeat split; reflexivity]].
  - unfold sort_fields, pieces. rewrite parse_sort_fields_spec, app_nil_l.
    by rewrite forallb_fmap.
  - unfold pieces, split. pose proof (split_go_nonempty "," 0 "" sort) as H.
    by destruct (split_go "," 0 "" sort).
Qed.


(** *** The sort *)

Section Orderings.

Context {A : Type} (cmp : A → A → comparison) (Hord : ordering cmp).

Lemma ord_eq_r (a b c : A) : cmp a b = Eq → cmp c a = cmp c b.
Proof.
  intros H. rewrite (ord_antisym cmp Hord a c), (ord_antisym cmp Hord b c).
  f_equal. by apply (ord_eq cmp Hord).
Qed.

Lemma cmp_le_trans (a b c : A) : cmp_le cmp a b → cmp_le cmp b c → cmp_le cmp a c.
Proof.
  unfold cmp_le. intros Hab Hbc.
  destruct (cmp a b) eqn:Eab; [| | done].
  - by rewrite (ord_eq cmp Hord a b c Eab).
  - destruct (cmp b c) eqn:Ebc; [| | done].
    + rewrite <- (ord_eq_r b c a Ebc), Eab. discriminate.
    + rewrite (ord_trans cmp Hord a b c Eab Ebc). discriminate.
Qed.

Lemma cmp_le_not_lt (x y : A) : cmp_lt cmp y x = false → cmp_le cmp x y.
Proof.
  unfold cmp_lt, cmp_le. rewrite (ord_antisym cmp Hord y x).
  by destruct (cmp y x).
Qed.

Lemma insert_sorted_Permutation (x : A) (l : list A) :
  insert_sorted (cmp_lt cmp) x l ≡ₚ x :: l.
Proof.
  induction l as [| y l IH]; cbn [insert_sorted]; [reflexivity |].
  destruct (cmp_lt cmp y x); [| reflexivity].
  rewrite IH. apply perm_swap.
Qed.

Lemma stable_sort_Permutation (l : list A) : stable_sort (cmp_lt cmp) l ≡ₚ l.
Proof.
  induction l as [| x l IH]; cbn [stable_sort]; [reflexivity |].
  rewrite insert_sorted_Permutation. by constructor.
Qed.

Lemma insert_sorted_StronglySorted (x : A) (l : list A) :
  StronglySorted (cmp_le cmp) l →
  StronglySorted (cmp_le cmp) (insert_sorted (cmp_lt cmp) x l).
Proof.
  induction 1 as [| y l Hl IH Hy]; cbn [insert_sorted].
  - repeat constructor.
  - destruct (cmp_lt cmp y x) eqn:E.
    + constructor; [exact IH |].
      rewrite insert_sorted_Permutation. constructor; [| exact Hy].
      unfold cmp_le. unfold cmp_lt in E. by destruct (cmp y x).
    + pose proof (cmp_le_not_lt x y E) as Hxy.
      constructor; [by constructor |]. constructor; [exact Hxy |].
      eapply Forall_impl; [exact Hy |]. intros z Hz. by apply (cmp_le_trans x y z).
Qed.

Lemma stable_sort_StronglySorted (l : list A) :
  StronglySorted (cmp_le cmp) (stable_sort (cmp_lt cmp) l).
Proof.
  induction l as [| x l IH]; cbn [stable_sort]; [constructor |].
  by apply insert_sorted_StronglySorted.
Qed.

(** An element goes in only past elements of other keys. *)
Lemma insert_sorted_filter (z x : A) (l : list A) :
  List.filter (cmp_eqb cmp z) (insert_sorted (cmp_lt cmp) x l)
  = List.filter (cmp_eqb cmp z) (x :: l).
Proof.
  induction l as [| y l IH]; cbn [insert_sorted]; [reflexivity |].
  destruct (cmp_lt cmp y x) eqn:E; [| reflexivity].
  cbn [List.filter] in *. rewrite IH.
  destruct (cmp_eqb cmp z y) eqn:Ey, (cmp_eqb cmp z x) eqn:Ex; try reflexivity.
  exfalso. unfold cmp_eqb, cmp_lt in *.
  destruct (cmp z y) eqn:Hzy; try discriminate Ey.
  destruct (cmp z x) eqn:Hzx; try discriminate Ex.
  rewrite <- (ord_eq cmp Hord z y x Hzy), Hzx in E. discriminate E.
Qed.

Lemma stable_sort_filter (z : A) (l : list A) :
  List.filter (cmp_eqb cmp z) (stable_sort (cmp_lt cmp) l)
  = List.filter (cmp_eqb cmp z) l.
Proof.
  induction l as [| x l IH]; cbn [stable_sort]; [reflexivity |].
  rewrite insert_sorted_filter. cbn [List.filter]. by rewrite IH.
Qed.

End Orderings.

Lemma lex_ordering {A} (cmps : list (A → A → comparison)) :
  Forall ordering cmps → ordering (lex cmps).
Proof.
  induction 1 as [| cmp cmps Hc _ IH]; [by split |].
  destruct IH as [IHa IHe IHt]. split; cbn [lex].
  - intros a b. rewrite (ord_antisym cmp Hc a b).
    destruct (cmp a b); cbn [CompOpp]; [apply IHa | reflexivity | reflexivity].
  - intros a b c. destruct (cmp a b) eqn:E; try discriminate.
    intros H. rewrite (ord_eq cmp Hc a b c E).
    destruct (cmp b c); [by apply IHe | reflexivity | reflexivity].
  - intros a b c. destruct (cmp a b) eqn:Eab; try discriminate.
    + rewrite (ord_eq cmp Hc a b c Eab).
      destruct (cmp b c); try discriminate; [apply IHt | reflexivity].
    + intros _. destruct (cmp b c) eqn:Ebc; try discriminate.
      * intros _. by rewrite <- (ord_eq_r cmp Hc b c a Ebc), Eab.
      * intros _. by rewrite (ord_trans cmp Hc a b c Eab Ebc).
Qed.

Lemma string_compare_trans (a b c : string) :
  String.compare a b = Lt → String.compare b c = Lt → String.compare a c = Lt.
Proof.
  intros Hab Hbc.
  assert (Hle : String.leb a c = true).
  { assert (H1 : String.le a b) by (unfold String.le, String.leb; by rewrite Hab).
    assert (H2 : String.le b c) by (unfold String.le, String.leb; by rewrite Hbc).
    pose proof (transitivity H1 H2) as H3. unfold String.le in H3.
    by apply Is_true_true in H3. }
  unfold String.leb in Hle. destruct (String.compare a c) eqn:E; try done.
  apply String.compare_eq_iff in E as ->.
  rewrite String.compare_antisym, Hbc in Hab. discriminate Hab.
Qed.

Lemma string_ordering {A} (g : A → string) :
  ordering (λ a b, String.compare (g a) (g b)).
Proof.
  split.
  - intros a b. apply String.compare_antisym.
  - intros a b c H. by apply String.compare_eq_iff in H as ->.
  - intros a b c. apply string_compare_trans.
Qed.

Lemma Z_ordering {A} (g : A → Z) : ordering (λ a b, Z.compare (g a) (g b)).
Proof.
  split.
  - intros a b. apply Z.compare_antisym.
  - intros a b c H. by apply Z.compare_eq in H as ->.
  - intros a b c. rewrite !Z.compare_lt_iff. lia.
Qed.

(** Every field name has an ordering behind it. *)
Lemma attr_compare_field (field : string) :
  field ∈ metrics_field_names →
  ordering (attr_cmp field) ∧ ∀ a b, attr_compare field a b = Some (attr_cmp field a b).
Proof.
  intros H. unfold metrics_field_names in H.
  repeat (apply elem_of_cons in H as [-> | H]); [.. | by apply elem_of_nil in H].
  1-3: split; [apply (string_ordering _) | reflexivity].
  all: split; [apply (Z_ordering _) | reflexivity].
Qed.

Lemma key_compare_lex (fields : list string) (a b : MetricsTuple) :
  Forall (λ field, field ∈ metrics_field_names) fields →
  key_compare fields a b = Some (lex (attr_cmp <$> fields) a b).
Proof.
  induction 1 as [| field fields Hf _ IH]; [reflexivity |].
  cbn [key_compare fmap list_fmap lex].
  rewrite (proj2 (attr_compare_field field Hf) a b). cbn [mbind option_bind].
  destruct (attr_cmp field a b); [exact IH | reflexivity | reflexivity].
Qed.

Lemma key_lt_lex (fields : list string) :
  Forall (λ field, field ∈ metrics_field_names) fields →
  ∀ l : list MetricsTuple,
    stable_sort (key_lt fields) l = stable_sort (cmp_lt (lex (attr_cmp <$> fields))) l.
Proof.
  intros Hf.
  assert (E : ∀ a b, key_lt fields a b = cmp_lt (lex (attr_cmp <$> fields)) a b).
  { intros a b. unfold key_lt, cmp_lt. by rewrite key_compare_lex. }
  assert (Hi : ∀ x l, insert_sorted (key_lt fields) x l
                      = insert_sorted (cmp_lt (lex (attr_cmp <$> fields))) x l).
  { intros x l. induction l as [| y l IH]; cbn [insert_sorted]; [reflexivity |].
    by rewrite E, IH. }
  induction l as [| x l IH]; cbn [stable_sort]; [reflexivity |]. by rewrite Hi, IH.
Qed.

Lemma StronglySorted_weaken {A} (R R' : A → A → Prop) (l : list A) :
  (∀ a b, R a b → R' a b) → StronglySorted R l → StronglySorted R' l.
Proof.
  intros H. induction 1 as [| a l _ IH Ha]; constructor; [exact IH |].
  eapply Forall_impl; [exact Ha | apply H].
Qed.

(** X13: for every accepted --sort argument the sort of the report goes
    through, and its result is the tuples themselves in another order,
    in which no tuple's key is less than the key of a tuple before it,
    and in which tuples of equal keys stay in the order they had. *)
Theorem X13_sorted_stable (sort : string) (fields : list string)
  (values : list MetricsTuple) :
  sort_fields (Some sort) = Ok fields →
  ∃ out,
    sorted_metrics fields values = Some out
    ∧ out ≡ₚ values
    ∧ StronglySorted (λ a b, key_lt fields b a = false) out
    ∧ ∀ mt,
        List.filter (λ x, bool_decide (key_compare fields mt x = Some Eq)) out
        = List.filter (λ x, bool_decide (key_compare fields mt x = Some Eq)) values.
Proof.
  intros Hsort. unfold sort_fields in Hsort.
  rewrite parse_sort_fields_spec, app_nil_l in Hsort.
  destruct (forallb _ (split sort ",")) eqn:Hall; [| discriminate Hsort].
  injection Hsort as Hfields.
  assert (Hvalid : Forall (λ field, field ∈ metrics_field_names) fields).
  { rewrite <- Hfields. rewrite forallb_forall in Hall.
    apply Forall_fmap, Forall_forall. intros piece Hin.
    apply list_elem_of_In, Hall in Hin. by apply bool_decide_eq_true_1 in Hin. }
  assert (Hne : fields ≠ []).
  { rewrite <- Hfields. unfold split.
    pose proof (split_go_nonempty "," 0 "" sort) as H.
    by destruct (split_go "," 0 "" sort). }
  pose proof (lex_ordering (attr_cmp <$> fields)) as Hord.
  assert (Ho : ordering (lex (attr_cmp <$> fields))).
  { apply Hord, Forall_fmap. eapply Forall_impl; [exact Hvalid |].
    intros field Hf. apply (attr_compare_field field Hf). }
  exists (stable_sort (key_lt fields) values). split; [| split; [| split]].
  - assert (Hk : forallb (λ mt, forallb (λ field,
                                  bool_decide (is_Some (attr_compare field mt mt)))
                                  fields) values = true).
    { apply forallb_forall. intros mt _. apply forallb_forall. intros f Hin.
      apply bool_decide_eq_true_2. rewrite Forall_forall in Hvalid.
      apply list_elem_of_In, Hvalid in Hin.
      rewrite (proj2 (attr_compare_field f Hin) mt mt). by eexists. }
    unfold sorted_metrics. rewrite Hk. by destruct fields.
  - rewrite key_lt_lex by exact Hvalid. apply stable_sort_Permutation.
  - rewrite key_lt_lex by exact Hvalid.
    eapply StronglySorted_weaken; [| apply (stable_sort_StronglySorted _ Ho)].
    intros a b Hab. unfold key_lt. rewrite key_compare_lex by exact Hvalid.
    unfold cmp_le in Hab. rewrite (ord_antisym _ Ho a b).
    by destruct (lex (attr_cmp <$> fields) a b).
  - intros mt. rewrite key_lt_lex by exact Hvalid.
    assert (E : ∀ l : list MetricsTuple,
              List.filter (λ x, bool_decide (key_compare fields mt x = Some Eq)) l
              = List.filter (cmp_eqb (lex (attr_cmp <$> fields)) mt) l).
    { intros l. apply List.filter_ext. intros x. unfold cmp_eqb.
      rewrite key_compare_lex by exact Hvalid.
      destruct (lex (attr_cmp <$> fields) mt x);
        [by apply bool_decide_true | by apply bool_decide_false ..]. }
    rewrite !E. apply (stable_sort_filter _ Ho).
Qed.

Lemma X13_sorted_stable_witness :
  let a := MetricsTuple.mk "2024-01-01" "10:00" "svc.B" 5 50 80 250 1 in
  let b := MetricsTuple.mk "2024-01-01" "10:01" "svc.A" 7 10 30 70 0 in
  let c := MetricsTuple.mk "2024-01-02" "09:00" "svc.B" 5 20 40 100 0 in
  sort_fields (Some "name, count") = Ok ["name"; "count"]
  ∧ sorted_metrics ["name"; "count"] [a; b; c] = Some [b; a; c]
  ∧ [b; a; c] ≡ₚ [a; b; c].
Proof.
  intros a b c.
  assert (H : sort_fields (Some "name, count") = Ok ["name"; "count"]) by reflexivity.
  split; [exact H |].
  destruct (X13_sorted_stable "name, count" ["name"; "count"] [a; b; c] H)
    as (out & Hs & Hp & _).
  assert (E : sorted_metrics ["name"; "count"] [a; b; c] = Some [b; a; c]) by reflexivity.
  rewrite E in Hs. injection Hs as <-. split; [exact E | exact Hp].
Defined.


(** *** The order of the lines and the report *)

Lemma setitem_order_keys (metrics : gmap string MetricsTuple) order key mt :
  keys_in_order metrics order →
  keys_in_order (<[key := mt]> metrics) (setitem_order order key).
Proof.
  intros [Hnd Hin]. unfold setitem_order. case_bool_decide as Hk.
  - split; [exact Hnd |]. intros k. rewrite lookup_insert_is_Some, Hin.
    destruct (decide (key = k)) as [<- |]; [| tauto].
    apply Hin in Hk. tauto.
  - split.
    + apply NoDup_app. split; [exact Hnd |]. split; [| apply NoDup_singleton].
      intros x Hx Hx'. apply list_elem_of_singleton in Hx' as ->. contradiction.
    + intros k. rewrite elem_of_app, list_elem_of_singleton, lookup_insert_is_Some, Hin.
      destruct (decide (key = k)) as [<- |]; [tauto |].
      split; [intros [? | ->]; [tauto | done] | tauto].
Qed.

Lemma apply_effect_keys utcoffset eff (m m' : gmap string MetricsTuple) order :
  apply_effect utcoffset eff m = Ok m' →
  keys_in_order m order → keys_in_order m' (effect_order eff order).
Proof.
  intros H Hk. destruct eff as [e | | ms name o]; cbn [apply_effect effect_order] in *.
  - discriminate H.
  - by injection H as <-.
  - destruct (Datetime.fromtimestamp utcoffset ms) as [[d t]|]; [| discriminate H].
    rewrite bind_Ok in H. injection H as <-. by apply setitem_order_keys.
Qed.

(** The list of keys kept beside the dictionary stays the list of its
    keys through the reading loop. *)
Lemma read_lines_keys utcoffset file_date aggregation_func regex_func file :
  ∀ (m m' : gmap string MetricsTuple) order,
    read_lines utcoffset file_date aggregation_func regex_func m file = Ok m' →
    keys_in_order m order →
    keys_in_order m' (read_lines_order file_date aggregation_func regex_func order file).
Proof.
  induction file as [| line rest IH]; intros m m' order H Hk;
    cbn [read_lines read_lines_order] in *.
  - by injection H as <-.
  - apply bind_inv_Ok in H as (m1 & H1 & H). rewrite read_line_effect in H1.
    eapply IH; [exact H |]. by eapply apply_effect_keys.
Qed.

Lemma values_Permutation (m : gmap string MetricsTuple) o1 o2 :
  keys_in_order m o1 → keys_in_order m o2 → values m o1 ≡ₚ values m o2.
Proof.
  intros [N1 H1] [N2 H2]. unfold values. apply omap_Permutation.
  apply NoDup_Permutation; [exact N1 | exact N2 |].
  intros key. by rewrite H1, H2.
Qed.

Lemma forallb_Permutation {A} (f : A → bool) (l l' : list A) :
  l ≡ₚ l' → forallb f l = forallb f l'.
Proof.
  induction 1 as [| x l l' _ IH | x y l | l l' l'' _ IH1 _ IH2]; cbn [forallb].
  - reflexivity.
  - by rewrite IH.
  - by destruct (f x), (f y).
  - by rewrite IH1.
Qed.

(** Two sorted arrangements of the same elements are the same list when
    no two different elements are each before the other. *)
Lemma StronglySorted_perm_eq {A} (R : A → A → Prop) (l : list A) :
  ∀ l', (∀ a b, a ∈ l → b ∈ l → R a b → R b a → a = b) →
        StronglySorted R l → StronglySorted R l' → l ≡ₚ l' → l = l'.
Proof.
  induction l as [| x xs IH]; intros l' Hanti Hl Hl' Hp.
  - by apply Permutation_nil_l in Hp.
  - destruct l' as [| y ys]; [by apply Permutation_nil_r in Hp |].
    apply StronglySorted_inv in Hl as [Hxs Hx], Hl' as [Hys Hy].
    rewrite Forall_forall in Hx, Hy.
    assert (E : x = y).
    { assert (Hxin : x ∈ y :: ys) by (rewrite <- Hp; left).
      assert (Hyin : y ∈ x :: xs) by (rewrite Hp; left).
      apply elem_of_cons in Hxin as [E | Hxin]; [exact E |].
      apply elem_of_cons in Hyin as [E | Hyin]; [by symmetry |].
      apply Hanti; [left | by right | by apply Hx | by apply Hy]. }
    subst y. f_equal. apply IH; [| exact Hxs | exact Hys | by eapply Permutation_cons_inv].
    intros a b Ha Hb. apply Hanti; by right.
Qed.

Lemma attr_compare_Some (field : string) (a b : MetricsTuple) :
  is_Some (attr_compare field a b) → field ∈ metrics_field_names.
Proof.
  unfold attr_compare, metrics_field_names. rewrite !elem_of_cons.
  repeat (match goal with
          | |- context [String.eqb field ?s] =>
              destruct (String.eqb_spec field s) as [-> | _]; [tauto |]
          end).
  by intros [? ?].
Qed.

(** The sort does not see the order of its input when no two different
    tuples have equal keys. *)
Lemma sorted_metrics_Permutation (fields : list string) (l l' : list MetricsTuple) :
  l ≡ₚ l' →
  (∀ a b, a ∈ l → b ∈ l → key_compare fields a b = Some Eq → a = b) →
  sorted_metrics fields l = sorted_metrics fields l'.
Proof.
  intros Hp Hties. unfold sorted_metrics.
  destruct fields as [| f fs]; [reflexivity |].
  rewrite <- (forallb_Permutation _ l l' Hp).
  destruct (forallb _ l) eqn:Hall; [| reflexivity]. f_equal.
  destruct l as [| x l0]; [by apply Permutation_nil_l in Hp as <- |].
  assert (Hvalid : Forall (λ field, field ∈ metrics_field_names) (f :: fs)).
  { rewrite forallb_forall in Hall. pose proof (Hall x (or_introl eq_refl)) as Hx.
    rewrite forallb_forall in Hx. apply Forall_forall. intros field Hin.
    apply list_elem_of_In, Hx, bool_decide_eq_true_1 in Hin.
    by apply attr_compare_Some in Hin. }
  assert (Ho : ordering (lex (attr_cmp <$> f :: fs))).
  { apply lex_ordering, Forall_fmap. eapply Forall_impl; [exact Hvalid |].
    intros field Hf. apply (attr_compare_field field Hf). }
  rewrite !key_lt_lex by exact Hvalid.
  apply (StronglySorted_perm_eq (cmp_le (lex (attr_cmp <$> f :: fs)))).
  - intros a b Ha Hb Hab Hba.
    rewrite (stable_sort_Permutation _ (x :: l0)) in Ha, Hb.
    apply (Hties a b Ha Hb). rewrite key_compare_lex by exact Hvalid. f_equal.
    unfold cmp_le in Hab, Hba. rewrite (ord_antisym _ Ho a b) in Hba.
    by destruct (lex (attr_cmp <$> f :: fs) a b).
  - apply (stable_sort_StronglySorted _ Ho).
  - apply (stable_sort_StronglySorted _ Ho).
  - by rewrite !stable_sort_Permutation.
Qed.

(** Where two tuples have equal keys the order of the lines shows in
    the report: two records of one name in different minutes, sorted
    by name, come out in the order in which they were read, though the
    dictionary is the same mapping. *)
Example line_order_shows_on_ties :
  let a := "10:00:05, tm, svc.A, count=2, max=50, sum=100, err.count=0" in
  let b := "10:01:20, tm, svc.A, count=3, max=30, sum=150, err.count=1" in
  let ta := MetricsTuple.mk "2024-01-01" "10:00" "svc.A" 2 50 50 100 0 in
  let tb := MetricsTuple.mk "2024-01-01" "10:01" "svc.A" 3 50 30 150 1 in
  let metrics : gmap string MetricsTuple :=
    <[metrics_key 1704103205000 "svc.A" := ta]>
      (<[metrics_key 1704103280000 "svc.A" := tb]> ∅) in
  let aggregation_func := calculate_aggregation_period_start_ms 0 None in
  let run file := read_lines 0 (Datetime.Date 2024 1 1) aggregation_func None ∅ file in
  let order file := read_lines_order (Datetime.Date 2024 1 1) aggregation_func None [] file in
  run [a; b] = Ok metrics ∧ run [b; a] = Ok metrics
  ∧ sorted_metrics ["name"] (values metrics (order [a; b])) = Some [ta; tb]
  ∧ sorted_metrics ["name"] (values metrics (order [b; a])) = Some [tb; ta].
Proof.
  intros a b ta tb metrics aggregation_func run order.
  split; [vm_compute; reflexivity |]. split; [vm_compute; reflexivity |].
  split; vm_compute; reflexivity.
Qed.

Lemma keys_in_order_empty : keys_in_order (∅ : gmap string MetricsTuple) [].
Proof.
  split; [constructor |]. intros key. split.
  - intros Hin. by apply elem_of_nil in Hin.
  - rewrite lookup_empty. intros [? ?]. discriminate.
Qed.

(** X4: reading the lines of a file in another order leaves the same
    dictionary as a mapping, with the same keys and tuples, but it may
    leave them in another order of insertion, which is the order
    [metrics.values()] hands to the sort.  So the tuples of the report
    are the same, and the report itself is the same whenever no two
    different tuples have equal sort keys; tuples of equal keys come
    out in the order in which their keys were first stored. *)
Theorem X4_line_order_and_report utcoffset file_date aggregation_func regex_func
  (file file' : list string) (metrics metrics' : gmap string MetricsTuple)
  (order : list string) :
  file ≡ₚ file' →
  keys_in_order metrics order →
  read_lines utcoffset file_date aggregation_func regex_func metrics file = Ok metrics' →
  let order1 := read_lines_order file_date aggregation_func regex_func order file in
  let order2 := read_lines_order file_date aggregation_func regex_func order file' in
  read_lines utcoffset file_date aggregation_func regex_func metrics file' = Ok metrics'
  ∧ keys_in_order metrics' order1
  ∧ keys_in_order metrics' order2
  ∧ values metrics' order1 ≡ₚ values metrics' order2
  ∧ ∀ sort_fields,
      (∀ a b, a ∈ values metrics' order1 → b ∈ values metrics' order1 →
              key_compare sort_fields a b = Some Eq → a = b) →
      sorted_metrics sort_fields (values metrics' order1)
      = sorted_metrics sort_fields (values metrics' order2).
Proof.
  intros Hperm Hk H order1 order2.
  pose proof (read_lines_Permutation utcoffset file_date aggregation_func regex_func
                file file' Hperm metrics metrics' H) as H'.
  pose proof (read_lines_keys _ _ _ _ _ _ _ _ H Hk) as K1.
  pose proof (read_lines_keys _ _ _ _ _ _ _ _ H' Hk) as K2.
  pose proof (values_Permutation _ _ _ K1 K2) as Hv.
  split; [exact H' |]. split; [exact K1 |]. split; [exact K2 |]. split; [exact Hv |].
  intros sort_fields Hties. by apply sorted_metrics_Permutation.
Qed.

Lemma X4_line_order_and_report_witness :
  let a := "10:00:05, tm, svc.A, count=2, max=50, sum=100, err.count=0" in
  let b := "10:00:20, tm, svc.B, count=3, max=30, sum=150, err.count=1" in
  let c := "11:01:00, tm, svc.A, count=1, max=9, sum=9" in
  let ta := MetricsTuple.mk "2024-01-01" "10:00" "svc.A" 2 50 50 100 0 in
  let tb := MetricsTuple.mk "2024-01-01" "10:00" "svc.B" 3 50 30 150 1 in
  let tc := MetricsTuple.mk "2024-01-01" "11:00" "svc.A" 1 9 9 9 0 in
  let metrics : gmap string MetricsTuple :=
    <[metrics_key 1704103200000 "svc.A" := ta]>
      (<[metrics_key 1704103200000 "svc.B" := tb]>
         (<[metrics_key 1704106800000 "svc.A" := tc]> ∅)) in
  let aggregation_func := calculate_aggregation_period_start_ms 0 (Some 3600000) in
  let run file := read_lines 0 (Datetime.Date 2024 1 1) aggregation_func None ∅ file in
  let order file := read_lines_order (Datetime.Date 2024 1 1) aggregation_func None [] file in
  run [a; b; c] = Ok metrics ∧ run [c; a; b] = Ok metrics
  ∧ values metrics (order [a; b; c]) = [ta; tb; tc]
  ∧ values metrics (order [c; a; b]) = [tc; ta; tb]
  ∧ sorted_metrics ["name"; "time"] (values metrics (order [a; b; c]))
    = sorted_metrics ["name"; "time"] (values metrics (order [c; a; b])).
Proof.
  intros a b c ta tb tc metrics aggregation_func run order.
  assert (Hperm : [a; b; c] ≡ₚ [c; a; b])
    by (apply (bool_decide_unpack _); vm_compute; exact I).
  assert (E : run [a; b; c] = Ok metrics) by (vm_compute; reflexivity).
  assert (V : values metrics (order [a; b; c]) = [ta; tb; tc])
    by (vm_compute; reflexivity).
  destruct (X4_line_order_and_report 0 (Datetime.Date 2024 1 1) aggregation_func None
              [a; b; c] [c; a; b] ∅ metrics [] Hperm keys_in_order_empty E)
    as (E' & _ & _ & _ & Hsort).
  split; [exact E |]. split; [exact E' |]. split; [exact V |].
  split; [vm_compute; reflexivity |].
  apply Hsort. fold (order [a; b; c]). rewrite V.
  clear Hperm E V E' Hsort. intros x y Hx Hy.
  repeat (apply elem_of_cons in Hx as [-> | Hx]);
    [.. | apply elem_of_nil in Hx; destruct Hx];
    (repeat (apply elem_of_cons in Hy as [-> | Hy]);
     [.. | apply elem_of_nil in Hy; destruct Hy]);
    first [reflexivity | intros Hc; vm_compute in Hc; discriminate Hc].
Defined.

(** *** A record as the file writes it *)

Lemma split_go_piece (a cur rest : string) :
  no_comma a →
  split_go ", " O cur (a +:+ ", " +:+ rest) = (cur +:+ a) :: split_go ", " O "" rest.
Proof.
  revert cur. induction a as [| c a IH]; intros cur Ha.
  - rewrite append_nil_l, append_nil_r. by destruct rest.
  - destruct Ha as [Hc Ha]. rewrite append_cons. cbn [split_go startswith].
    destruct (Ascii.eqb_spec "," c) as [<- | _]; [done |].
    rewrite (IH _ Ha), append_assoc. reflexivity.
Qed.

Lemma no_comma_append (a b : string) : no_comma a → no_comma b → no_comma (a +:+ b).
Proof.
  intros Ha Hb. induction a as [| c a IH]; [exact Hb |].
  destruct Ha as [Hc Ha]. rewrite append_cons. split; [exact Hc | by apply IH].
Qed.

Lemma no_comma_digits (s : string) : all_digits s → no_comma s.
Proof.
  induction s as [| c s IH]; [done |]. intros [Hc Hs]. split; [| by apply IH].
  intros ->. discriminate Hc.
Qed.

Lemma no_comma_str (n : Z) : no_comma (str n).
Proof.
  destruct (Z.lt_ge_cases n 0) as [H | H].
  - destruct (str_neg_digits n H) as (s & -> & Hs & _).
    split; [discriminate | by apply no_comma_digits].
  - apply no_comma_digits. by apply str_nonneg_digits.
Qed.

Lemma no_comma_eol (terminated : bool) : no_comma (eol terminated).
Proof. destruct terminated; [split; [discriminate | exact I] | exact I]. Qed.

Lemma lit_cons (c : ascii) (rest : string) : Datetime.lit c (String c rest) = [rest].
Proof. cbn [Datetime.lit]. by rewrite Ascii.eqb_refl. Qed.

Lemma dir_H_text (h : Z) (rest : string) :
  0 ≤ h ≤ 23 →
  no_comma (zfill 2 h)
  ∧ ∃ others, Datetime.dir_H (zfill 2 h +:+ rest) = (h, rest) :: others.
Proof.
  intros Hh. assert (H : h = 0 ∨ h = 1 ∨ h = 2 ∨ h = 3 ∨ h = 4 ∨ h = 5 ∨ h = 6 ∨ h = 7 ∨ h = 8 ∨ h = 9 ∨ h = 10 ∨ h = 11 ∨ h = 12 ∨ h = 13 ∨ h = 14 ∨ h = 15 ∨ h = 16 ∨ h = 17 ∨ h = 18 ∨ h = 19 ∨ h = 20 ∨ h = 21 ∨ h = 22 ∨ h = 23) by lia.
  repeat (destruct H as [-> | H]); try subst h;
    (split; [repeat split; discriminate | eexists; reflexivity]).
Qed.

Lemma dir_M_text (m : Z) (rest : string) :
  0 ≤ m ≤ 59 →
  no_comma (zfill 2 m)
  ∧ ∃ others, Datetime.dir_M (zfill 2 m +:+ rest) = (m, rest) :: others.
Proof.
  intros Hm. assert (H : m = 0 ∨ m = 1 ∨ m = 2 ∨ m = 3 ∨ m = 4 ∨ m = 5 ∨ m = 6 ∨ m = 7 ∨ m = 8 ∨ m = 9 ∨ m = 10 ∨ m = 11 ∨ m = 12 ∨ m = 13 ∨ m = 14 ∨ m = 15 ∨ m = 16 ∨ m = 17 ∨ m = 18 ∨ m = 19 ∨ m = 20 ∨ m = 21 ∨ m = 22 ∨ m = 23 ∨ m = 24 ∨ m = 25 ∨ m = 26 ∨ m = 27 ∨ m = 28 ∨ m = 29 ∨ m = 30 ∨ m = 31 ∨ m = 32 ∨ m = 33 ∨ m = 34 ∨ m = 35 ∨ m = 36 ∨ m = 37 ∨ m = 38 ∨ m = 39 ∨ m = 40 ∨ m = 41 ∨ m = 42 ∨ m = 43 ∨ m = 44 ∨ m = 45 ∨ m = 46 ∨ m = 47 ∨ m = 48 ∨ m = 49 ∨ m = 50 ∨ m = 51 ∨ m = 52 ∨ m = 53 ∨ m = 54 ∨ m = 55 ∨ m = 56 ∨ m = 57 ∨ m = 58 ∨ m = 59) by lia.
  repeat (destruct H as [-> | H]); try subst m;
    (split; [repeat split; discriminate | eexists; reflexivity]).
Qed.

Lemma dir_S_text (s : Z) (rest : string) :
  0 ≤ s ≤ 59 →
  ∃ others, Datetime.dir_S (zfill 2 s +:+ rest) = (s, rest) :: others.
Proof.
  intros Hs. assert (H : s = 0 ∨ s = 1 ∨ s = 2 ∨ s = 3 ∨ s = 4 ∨ s = 5 ∨ s = 6 ∨ s = 7 ∨ s = 8 ∨ s = 9 ∨ s = 10 ∨ s = 11 ∨ s = 12 ∨ s = 13 ∨ s = 14 ∨ s = 15 ∨ s = 16 ∨ s = 17 ∨ s = 18 ∨ s = 19 ∨ s = 20 ∨ s = 21 ∨ s = 22 ∨ s = 23 ∨ s = 24 ∨ s = 25 ∨ s = 26 ∨ s = 27 ∨ s = 28 ∨ s = 29 ∨ s = 30 ∨ s = 31 ∨ s = 32 ∨ s = 33 ∨ s = 34 ∨ s = 35 ∨ s = 36 ∨ s = 37 ∨ s = 38 ∨ s = 39 ∨ s = 40 ∨ s = 41 ∨ s = 42 ∨ s = 43 ∨ s = 44 ∨ s = 45 ∨ s = 46 ∨ s = 47 ∨ s = 48 ∨ s = 49 ∨ s = 50 ∨ s = 51 ∨ s = 52 ∨ s = 53 ∨ s = 54 ∨ s = 55 ∨ s = 56 ∨ s = 57 ∨ s = 58 ∨ s = 59) by lia.
  repeat (destruct H as [-> | H]); try subst s; (eexists; reflexivity).
Qed.

(** The text HH:MM:SS of a valid time is read back as that time, and
    holds no comma. *)
Lemma strptime_HMS_text (t : Datetime.time) :
  Datetime.valid_time t = true →
  no_comma (HMS_text t) ∧ Datetime.strptime_HMS (HMS_text t) = Ok t.
Proof.
  intros Hv. pose proof Hv as Hv'. unfold Datetime.valid_time in Hv'.
  rewrite !andb_true_iff, !Z.leb_le in Hv'.
  destruct t as [h m s]. cbn [Datetime.hour Datetime.minute Datetime.second] in *.
  unfold HMS_text. cbn [Datetime.hour Datetime.minute Datetime.second].
  destruct (dir_H_text h (":" +:+ zfill 2 m +:+ ":" +:+ zfill 2 s) ltac:(lia))
    as [Ch [oh Eh]].
  destruct (dir_M_text m (":" +:+ zfill 2 s) ltac:(lia)) as [Cm [om Em]].
  destruct (dir_M_text s "" ltac:(lia)) as [Cs _].
  destruct (dir_S_text s "" ltac:(lia)) as [os Es]. rewrite append_nil_r in Es.
  split.
  - apply no_comma_append; [exact Ch |].
    apply (no_comma_append ":"); [split; [discriminate | exact I] |].
    apply no_comma_append; [exact Cm |].
    apply (no_comma_append ":"); [split; [discriminate | exact I] | exact Cs].
  - unfold Datetime.strptime_HMS. rewrite Eh. cbn [mbind list_bind app].
    rewrite append_cons, append_nil_l, lit_cons. cbn [mbind list_bind app].
    rewrite Em. cbn [mbind list_bind app].
    rewrite append_cons, append_nil_l, lit_cons. cbn [mbind list_bind app].
    rewrite Es. cbn [mbind list_bind app Datetime.first_match]. by rewrite Hv.
Qed.

Lemma field_value_skip (field_name field : string) (rest : list string) :
  startswith field field_name = false →
  field_value field_name (field :: rest) = field_value field_name rest.
Proof. intros H. cbn [field_value]. by rewrite H. Qed.

(** The fields of a rendered record, the last one with the line's
    terminator, are read back as the record's numbers. *)
Lemma read_observation_rendered (o : observation) (terminated : bool) :
  read_observation
    ["count=" +:+ str (o_count o); "max=" +:+ str (o_max o);
     "sum=" +:+ str (o_sum o); "err.count=" +:+ str (o_errcount o) +:+ eol terminated]
  = Ok o.
Proof.
  destruct o as [c m s e]. cbn [o_count o_max o_sum o_errcount].
  assert (Hread : ∀ field_name v rest,
            field_value field_name ((field_name +:+ "=" +:+ str v) :: rest) = Ok v).
  { intros field_name v rest.
    pose proof (field_value_head field_name "=" v false rest) as H.
    cbn [eol] in H. rewrite append_nil_r in H. exact H. }
  change (read_observation ?l) with
    (read_observation
       ["count" +:+ "=" +:+ str c; "max" +:+ "=" +:+ str m; "sum" +:+ "=" +:+ str s;
        "err.count" +:+ String "=" (str e +:+ eol terminated)]).
  unfold read_observation.
  rewrite (Hread "count" c), bind_Ok.
  rewrite (field_value_skip "max") by reflexivity.
  rewrite (Hread "max" m), bind_Ok.
  rewrite 2!(field_value_skip "sum") by reflexivity.
  rewrite (Hread "sum" s), bind_Ok.
  rewrite 3!(field_value_skip "err.count") by reflexivity.
  rewrite (field_value_head "err.count" "=" e terminated), bind_Ok.
  reflexivity.
Qed.

Lemma split_render_line (t : Datetime.time) (name : string) (o : observation)
  (terminated : bool) :
  Datetime.valid_time t = true →
  no_comma name →
  split (render_line t name o terminated) ", "
  = [HMS_text t; TIMING_RECORD; name;
     "count=" +:+ str (o_count o); "max=" +:+ str (o_max o);
     "sum=" +:+ str (o_sum o); "err.count=" +:+ str (o_errcount o) +:+ eol terminated].
Proof.
  intros Hv Hname. destruct (strptime_HMS_text t Hv) as [Ht _].
  unfold split, render_line.
  rewrite (split_go_piece (HMS_text t) "" _ Ht), append_nil_l.
  rewrite (split_go_piece TIMING_RECORD "" _ ltac:(repeat split; discriminate)), append_nil_l.
  rewrite (split_go_piece name "" _ Hname), append_nil_l.
  rewrite <- (append_assoc "count=" (str (o_count o))).
  rewrite (split_go_piece ("count=" +:+ str (o_count o)) "" _), append_nil_l
    by (apply no_comma_append; [repeat split; discriminate | apply no_comma_str]).
  rewrite <- (append_assoc "max=" (str (o_max o))).
  rewrite (split_go_piece ("max=" +:+ str (o_max o)) "" _), append_nil_l
    by (apply no_comma_append; [repeat split; discriminate | apply no_comma_str]).
  rewrite <- (append_assoc "sum=" (str (o_sum o))).
  rewrite (split_go_piece ("sum=" +:+ str (o_sum o)) "" _), append_nil_l
    by (apply no_comma_append; [repeat split; discriminate | apply no_comma_str]).
  rewrite split_go_no_comma, append_nil_l; [reflexivity |].
  apply no_comma_append; [repeat split; discriminate |].
  apply no_comma_append; [apply no_comma_str | apply no_comma_eol].
Qed.

(** X14: a timing record written as the file format has it (the time
    as HH:MM:SS, the tag, a name without a comma, the four fields and
    the line terminator, if any) is read as one merge of its four
    numbers under its name and the bucket of its time, when the name
    passes the filter, and as nothing when it does not. *)
Theorem X14_record_round_trip utcoffset file_date aggregation_func regex_func
  (metrics : gmap string MetricsTuple) (t : Datetime.time) (name : string)
  (o : observation) (terminated : bool) (ms : Z) (d : Datetime.date) (t' : Datetime.time) :
  Datetime.valid_time t = true →
  no_comma name →
  aggregation_func file_date t = Ok ms →
  Datetime.fromtimestamp utcoffset ms = Ok (d, t') →
  read_line utcoffset file_date aggregation_func regex_func metrics
    (render_line t name o terminated)
  = if passes_filter regex_func name
    then Ok (<[metrics_key ms name :=
                 merged d t' name (default zero_tuple (metrics !! metrics_key ms name)) o]>
               metrics)
    else Ok metrics.
Proof.
  intros Hv Hname Hms Hd. rewrite read_line_effect. unfold line_effect.
  rewrite (split_render_line t name o terminated Hv Hname).
  rewrite (proj2 (strptime_HMS_text t Hv)), Hms.
  change (String.eqb TIMING_RECORD TIMING_RECORD) with true. cbn [andb].
  destruct (passes_filter regex_func name); [| reflexivity].
  rewrite read_observation_rendered. cbn [apply_effect]. by rewrite Hd.
Qed.

Lemma X14_record_round_trip_witness :
  read_line 0 (Datetime.Date 2024 1 1)
    (calculate_aggregation_period_start_ms 0 (Some 60000)) None ∅
    "10:00:05, tm, svc.A, count=2, max=50, sum=100, err.count=-1"
  = Ok {[ metrics_key 1704103200000 "svc.A" :=
            MetricsTuple.mk "2024-01-01" "10:00" "svc.A" 2 50 50 100 (-1) ]}.
Proof.
  exact (X14_record_round_trip 0 (Datetime.Date 2024 1 1)
           (calculate_aggregation_period_start_ms 0 (Some 60000)) None ∅
           (Datetime.Time 10 0 5) "svc.A" (Observation 2 50 100 (-1)) false
           1704103200000 (Datetime.Date 2024 1 1) (Datetime.Time 10 0 0)
           eq_refl ltac:(repeat split; discriminate) eq_refl eq_refl).
Defined.


(** *** Entries stay *)

Lemma apply_effect_keeps utcoffset eff (m m' : gmap string MetricsTuple) key mt :
  apply_effect utcoffset eff m = Ok m' →
  m !! key = Some mt →
  ∃ mt', m' !! key = Some mt' ∧ (nonneg_effect eff → grown mt mt').
Proof.
  intros H Hl. destruct eff as [e | | ms name o]; cbn [apply_effect] in H.
  - discriminate H.
  - inversion H; subst. exists mt. split; [exact Hl |]. intros _. unfold grown. lia.
  - apply bind_inv_Ok in H as ([d t] & _ & H). inversion H; subst m'. clear H.
    destruct (decide (metrics_key ms name = key)) as [<- | Hne].
    + rewrite lookup_insert_eq, Hl. eexists. split; [reflexivity |].
      cbn [default nonneg_effect]. unfold id, grown, merged.
      cbn [MetricsTuple.count MetricsTuple.max MetricsTuple.sum MetricsTuple.errcount].
      lia.
    + rewrite lookup_insert_ne by exact Hne. exists mt. split; [exact Hl |].
      intros _. unfold grown. lia.
Qed.

(** X15: reading a file never removes an entry of the dictionary; and
    when no timing record that passes the filter carries a negative
    count, max, sum or err.count, no stored count, max, sum or errcount
    ever decreases. *)
Theorem X15_entries_stay utcoffset file_date aggregation_func regex_func
  (file : list string) (metrics metrics' : gmap string MetricsTuple)
  (key : string) (mt : MetricsTuple) :
  read_lines utcoffset file_date aggregation_func regex_func metrics file = Ok metrics' →
  metrics !! key = Some mt →
  ∃ mt',
    metrics' !! key = Some mt'
    ∧ (Forall (λ line, nonneg_effect
                 (line_effect file_date aggregation_func regex_func line)) file →
       grown mt mt').
Proof.
  revert metrics mt. induction file as [| line rest IH]; intros metrics mt H Hl.
  - inversion H; subst. exists mt. split; [exact Hl |]. intros _. unfold grown. lia.
  - cbn [read_lines] in H. apply bind_inv_Ok in H as (m1 & H1 & H).
    rewrite read_line_effect in H1.
    destruct (apply_effect_keeps _ _ _ _ _ _ H1 Hl) as (mt1 & Hl1 & Hg1).
    destruct (IH m1 mt1 H Hl1) as (mt' & Hl' & Hg').
    exists mt'. split; [exact Hl' |]. intros Hall.
    apply Forall_cons in Hall as [Hline Hrest].
    specialize (Hg1 Hline). specialize (Hg' Hrest). unfold grown in *. lia.
Qed.

Lemma X15_entries_stay_witness :
  let before : gmap string MetricsTuple :=
    {[ metrics_key 1704103200000 "svc.A" :=
         MetricsTuple.mk "2024-01-01" "10:00" "svc.A" 2 50 50 100 0 ]} in
  let file := ["10:00:20, tm, svc.A, count=3, max=30, sum=150, err.count=1";
               "10:00:30, tm, svc.B, count=1"] in
  ∃ after mt',
    read_lines 0 (Datetime.Date 2024 1 1)
      (calculate_aggregation_period_start_ms 0 (Some 60000)) None before file = Ok after
    ∧ after !! metrics_key 1704103200000 "svc.A" = Some mt'
    ∧ 2 ≤ MetricsTuple.count mt'.
Proof.
  intros before file.
  assert (E : ∃ after,
            read_lines 0 (Datetime.Date 2024 1 1)
              (calculate_aggregation_period_start_ms 0 (Some 60000)) None before file
            = Ok after)
    by (vm_compute; eexists; reflexivity).
  destruct E as [after E].
  destruct (X15_entries_stay 0 _ _ None file before after
              (metrics_key 1704103200000 "svc.A")
              (MetricsTuple.mk "2024-01-01" "10:00" "svc.A" 2 50 50 100 0) E
              ltac:(apply lookup_singleton_eq))
    as (mt' & Hl & Hg).
  exists after, mt'. split; [exact E |]. split; [exact Hl |].
  assert (Hall : Forall (λ line, nonneg_effect
                          (line_effect (Datetime.Date 2024 1 1)
                             (calculate_aggregation_period_start_ms 0 (Some 60000))
                             None line)) file).
  { repeat constructor; vm_compute; congruence. }
  exact (proj1 (Hg Hall)).
Defined.
